(** * homebrew_services: a shallow embedding of the Ansible module

    The module lives in
    [lib/ansible/modules/packaging/os/homebrew_services.py].  It validates a
    few strings against character classes, builds [brew services ...]
    command vectors, runs them through [AnsibleModule.run_command] and
    classifies the error stream.

    Conventions of the embedding:
    - Python byte strings are [string]s (lists of [ascii]); [\w] and [\s]
      are the ASCII classes of Python 2's [re] on [str], as the source's own
      comment spells out ([[a-zA-Z0-9_]]);
    - the attributes of the [HomebrewService] object are a record, the
      methods are computations in a state-and-exception monad whose state
      is the object together with the list of commands handed to
      [run_command] so far;
    - [run_command] is an oracle of the module: it sees the commands that
      ran before and the command to run. *)

From Stdlib Require Import Bool List String Ascii NArith ZArith Lia DecimalString.
Import ListNotations.
Local Open Scope string_scope.
Local Open Scope Z_scope.

Set Implicit Arguments.

(** ** Python strings *)

Module Py.

Definition newline : ascii := "010"%char.

(** [c.isspace()] for a byte of a Python 2 [str]; also the class [\s]. *)
Definition isspace (c : ascii) : bool :=
  let n := N_of_ascii c in
  (n =? 32)%N || ((9 <=? n)%N && (n <=? 13)%N).

(** [\w] without LOCALE or UNICODE: [[a-zA-Z0-9_]]. *)
Definition isword (c : ascii) : bool :=
  let n := N_of_ascii c in
  ((48 <=? n)%N && (n <=? 57)%N)
  || ((65 <=? n)%N && (n <=? 90)%N)
  || ((97 <=? n)%N && (n <=? 122)%N)
  || (n =? 95)%N.

(** [s.split(sep)] for a one-character separator. *)
Fixpoint split (sep : ascii) (s : string) : list string :=
  match s with
  | EmptyString => [EmptyString]
  | String c s' =>
      if Ascii.eqb c sep then EmptyString :: split sep s'
      else match split sep s' with
           | h :: t => String c h :: t
           | [] => [String c EmptyString]
           end
  end.

Fixpoint lstrip (s : string) : string :=
  match s with
  | EmptyString => EmptyString
  | String c s' => if isspace c then lstrip s' else s
  end.

(** [rstrip]: a character stays when something after it stays or it is
    not white space. *)
Fixpoint rstrip (s : string) : string :=
  match s with
  | EmptyString => EmptyString
  | String c s' =>
      match rstrip s' with
      | EmptyString => if isspace c then EmptyString else String c EmptyString
      | r => String c r
      end
  end.

Definition strip (s : string) : string := rstrip (lstrip s).

(** [''.join(l)] *)
Definition join (l : list string) : string := String.concat "" l.

(** [bool(s)] for a string. *)
Definition nonempty (s : string) : bool :=
  match s with EmptyString => false | _ => true end.

(** ['%d' % n] *)
Definition of_int (n : Z) : string := NilZero.string_of_int (Z.to_int n).

(** [template.format(sep=sep)] for a template whose only replacement
    field is [{sep}]. *)
Fixpoint format_sep (template sep : string) : string :=
  match template with
  | String "{" (String "s" (String "e" (String "p" (String "}" rest)))) =>
      sep ++ format_sep rest sep
  | String c rest => String c (format_sep rest sep)
  | EmptyString => EmptyString
  end.

End Py.

(** ** The fragment of [re] the module uses *)

Module Re.

(** *** Negated character sets, [[^...]] *)

Inductive set_item :=
| Word                       (* \w *)
| Space                      (* \s *)
| Literal (c : ascii)
| Range (lo hi : ascii).

Definition item_matches (i : set_item) (c : ascii) : bool :=
  match i with
  | Word => Py.isword c
  | Space => Py.isspace c
  | Literal d => Ascii.eqb c d
  | Range lo hi => (N_of_ascii lo <=? N_of_ascii c)%N && (N_of_ascii c <=? N_of_ascii hi)%N
  end.

(** What the parser reads before it decides about ranges: a plain
    character, an escaped character, or a category escape. *)
Inductive token :=
| TChar (c : ascii)
| TEscaped (c : ascii)
| TCategory (i : set_item).

(** [None] is [re.error], or an escape the module never writes. *)
Fixpoint tokens (s : string) : option (list token) :=
  match s with
  | EmptyString => Some []
  | String "\" EmptyString => None
  | String "\" (String e rest) =>
      match tokens rest with
      | None => None
      | Some ts =>
          if Ascii.eqb e "w" then Some (TCategory Word :: ts)
          else if Ascii.eqb e "s" then Some (TCategory Space :: ts)
          else if Py.isword e then None
          else Some (TEscaped e :: ts)
      end
  | String "]" _ => None
  | String c rest =>
      match tokens rest with
      | None => None
      | Some ts => Some (TChar c :: ts)
      end
  end.

Definition single (t : token) : set_item :=
  match t with
  | TChar c | TEscaped c => Literal c
  | TCategory i => i
  end.

(** sre_parse: after an item, an unescaped [-] that is not the last
    character of the set opens a range; both ends must be literals and
    in order. *)
Definition range (t1 t2 : token) : option set_item :=
  match single t1, single t2 with
  | Literal lo, Literal hi =>
      if (N_of_ascii lo <=? N_of_ascii hi)%N then Some (Range lo hi) else None
  | _, _ => None
  end.

Fixpoint items (ts : list token) : option (list set_item) :=
  match ts with
  | [] => Some []
  | t1 :: TChar "-" :: t2 :: rest =>
      match range t1 t2, items rest with
      | Some r, Some more => Some (r :: more)
      | _, _ => None
      end
  | t1 :: rest =>
      match items rest with
      | Some more => Some (single t1 :: more)
      | None => None
      end
  end.

(** [re.compile('[^' + body + ']')] *)
Definition compile_negated_set (body : string) : option (list set_item) :=
  match body with
  | EmptyString => None
  | _ => match tokens body with
         | Some ts => items ts
         | None => None
         end
  end.

Definition in_set (set : list set_item) (c : ascii) : bool :=
  existsb (fun i => item_matches i c) set.

(** [regex.search(s)] for [regex = [^set]], as a truth value: some
    character of [s] is outside the set. *)
Fixpoint search_negated_set (set : list set_item) (s : string) : bool :=
  match s with
  | EmptyString => false
  | String c s' => negb (in_set set c) || search_negated_set set s'
  end.

(** *** Patterns built by string concatenation

    The two patterns the module builds at run time are a fixed text
    around an interpolated service name.  After [valid_package] a name
    holds no metacharacter but [.] and [+], and the fixed text adds [^],
    [.] and [*]: that is the fragment below. *)

Inductive atom :=
| Char (c : ascii)
| AnyChar.                   (* . : anything but a newline *)

Inductive quantifier := Once | OneOrMore | ZeroOrMore.

Record pattern := Pattern {
  at_beginning : bool;       (* the pattern starts with ^ *)
  body : list (atom * quantifier)
}.

Inductive compiled (A : Type) :=
| Compiled (p : A)
| Error                      (* re.error *)
| Unsupported.               (* outside the fragment *)
Arguments Error {A}.
Arguments Unsupported {A}.

Definition outside_fragment (c : ascii) : bool :=
  existsb (Ascii.eqb c)
    ["\"; "["; "]"; "("; ")"; "{"; "}"; "?"; "|"; "$"; "^"]%char.

Definition atom_of (c : ascii) : atom :=
  if Ascii.eqb c "." then AnyChar else Char c.

Definition quantified (a : atom) (q : quantifier)
    (rest : compiled (list (atom * quantifier))) :
    compiled (list (atom * quantifier)) :=
  match rest with
  | Compiled p => Compiled ((a, q) :: p)
  | other => other
  end.

(** A [+] or [*] met here has no atom before it ("nothing to repeat") or
    follows another quantifier ("multiple repeat"). *)
Fixpoint parse (s : string) : compiled (list (atom * quantifier)) :=
  match s with
  | EmptyString => Compiled []
  | String c rest =>
      if Ascii.eqb c "+" || Ascii.eqb c "*" then Error
      else if outside_fragment c then Unsupported
      else match rest with
           | String "+" rest' => quantified (atom_of c) OneOrMore (parse rest')
           | String "*" rest' => quantified (atom_of c) ZeroOrMore (parse rest')
           | _ => quantified (atom_of c) Once (parse rest)
           end
  end.

(** [re.compile(s)] *)
Definition compile (s : string) : compiled pattern :=
  match s with
  | String "^" rest =>
      match parse rest with
      | Compiled p => Compiled (Pattern true p)
      | Error => Error
      | Unsupported => Unsupported
      end
  | _ =>
      match parse s with
      | Compiled p => Compiled (Pattern false p)
      | Error => Error
      | Unsupported => Unsupported
      end
  end.

Definition atom_matches (a : atom) (c : ascii) : bool :=
  match a with
  | Char d => Ascii.eqb c d
  | AnyChar => negb (Ascii.eqb c Py.newline)
  end.

(** Zero or more characters matching [a], then [k]. *)
Fixpoint repeat_then (a : atom) (k : string -> bool) (s : string) : bool :=
  k s ||
  match s with
  | String c s' => atom_matches a c && repeat_then a k s'
  | EmptyString => false
  end.

(** The pattern matches a prefix of [s]. *)
Fixpoint match_here (p : list (atom * quantifier)) (s : string) : bool :=
  match p with
  | [] => true
  | (a, Once) :: p' =>
      match s with
      | String c s' => atom_matches a c && match_here p' s'
      | EmptyString => false
      end
  | (a, OneOrMore) :: p' =>
      match s with
      | String c s' => atom_matches a c && repeat_then a (match_here p') s'
      | EmptyString => false
      end
  | (a, ZeroOrMore) :: p' => repeat_then a (match_here p') s
  end.

Fixpoint match_anywhere (p : list (atom * quantifier)) (s : string) : bool :=
  match_here p s ||
  match s with
  | String _ s' => match_anywhere p s'
  | EmptyString => false
  end.

(** [re.match(p, s)], as a truth value. *)
Definition match_ (p : pattern) (s : string) : bool := match_here (body p) s.

(** [re.search(p, s)], as a truth value (no MULTILINE: [^] is the start
    of the string). *)
Definition search (p : pattern) (s : string) : bool :=
  if at_beginning p then match_here (body p) s else match_anywhere (body p) s.

End Re.

(** ** Python values

    What the module receives where it tests [is None], [isinstance(...,
    string_types)] or truth. *)

Inductive pyval :=
| PNone
| PStr (s : string)
| PInt (n : Z).

(** [bool(v)] *)
Definition truthy (v : pyval) : bool :=
  match v with
  | PNone => false
  | PStr s => Py.nonempty s
  | PInt n => negb (n =? 0)
  end.

(** ['{0}'.format(v)] *)
Definition format0 (v : pyval) : string :=
  match v with
  | PNone => "None"
  | PStr s => s
  | PInt n => Py.of_int n
  end.

(** The [path] argument: a string, an iterable of values, or neither. *)
Inductive pypath :=
| PathStr (s : string)
| PathList (l : list pyval)
| PathOther (v : pyval).

(** ** utils *)

(** The compiled form of a pattern whose compilation succeeds. *)
Definition the {A} (o : option A) : match o with Some _ => A | None => unit end :=
  match o with Some a => a | None => tt end.

Definition nonblank_lines (s : string) : list string :=
  map Py.strip (filter (fun line => Py.nonempty (Py.strip line)) (Py.split Py.newline s)).

Definition before_comment (line : string) : string :=
  Py.strip (hd EmptyString (Py.split "#" line)).

Definition regex_group_chars (s : string) : string :=
  Py.join (filter Py.nonempty (map before_comment (nonblank_lines s))).

Definition _create_regex_group (s : string) : option (list Re.set_item) :=
  Re.compile_negated_set (regex_group_chars s).

(** ** class HomebrewService: regexes and validations *)

Definition os_path_sep : string := "/".

Definition VALID_PATH_CHARS : string := Py.format_sep "
        \w                  # alphanumeric characters (i.e., [a-zA-Z0-9_])
        \s                  # spaces
        :                   # colons
        {sep}               # the OS-specific path separator
        .                   # dots
        -                   # dashes
    " os_path_sep.

Definition VALID_BREW_PATH_CHARS : string := Py.format_sep "
        \w                  # alphanumeric characters (i.e., [a-zA-Z0-9_])
        \s                  # spaces
        {sep}               # the OS-specific path separator
        .                   # dots
        -                   # dashes
    " os_path_sep.

Definition VALID_PACKAGE_CHARS : string := "
        \w                  # alphanumeric characters (i.e., [a-zA-Z0-9_])
        .                   # dots
        /                   # slash (for taps)
        \+                  # plusses
        -                   # dashes
        :                   # colons (for URLs)
        @                   # at-sign
    ".

Definition INVALID_PATH_REGEX : list Re.set_item :=
  Eval vm_compute in the (_create_regex_group VALID_PATH_CHARS).
Definition INVALID_BREW_PATH_REGEX : list Re.set_item :=
  Eval vm_compute in the (_create_regex_group VALID_BREW_PATH_CHARS).
Definition INVALID_PACKAGE_REGEX : list Re.set_item :=
  Eval vm_compute in the (_create_regex_group VALID_PACKAGE_CHARS).

Definition valid_brew_path (brew_path : pyval) : bool :=
  match brew_path with
  | PNone => true
  | PStr s => negb (Re.search_negated_set INVALID_BREW_PATH_REGEX s)
  | PInt _ => false
  end.

Definition valid_path (path : pypath) : bool :=
  match path with
  | PathStr s => negb (Re.search_negated_set INVALID_PATH_REGEX s)
  | PathList paths => forallb valid_brew_path paths
  | PathOther _ => false
  end.

Definition valid_package (package : pyval) : bool :=
  match package with
  | PNone => true
  | PStr s => negb (Re.search_negated_set INVALID_PACKAGE_REGEX s)
  | PInt _ => false
  end.

Definition pyval_eqb (v w : pyval) : bool :=
  match v, w with
  | PNone, PNone => true
  | PStr s, PStr t => String.eqb s t
  | PInt n, PInt m => n =? m
  | _, _ => false
  end.

(** ** The object and its world *)

(** [AnsibleModule], as far as the class uses it.  [run_command history
    cmd] is what running [cmd] returns, [(rc, out, err)], after the
    commands of [history] have run. *)
Record AnsibleModule := {
  check_mode : bool;
  run_command : list (list pyval) -> list pyval -> Z * string * string
}.

Record HomebrewService := {
  module : AnsibleModule;
  brew_path : pyval;
  packages : option (list pyval);      (* None, or a list *)
  state : pyval;
  service_options : list pyval;
  current_package : option pyval;      (* unset until first assigned *)
  failed : bool;
  changed : bool;
  changed_count : Z;
  unchanged_count : Z;
  message : string
}.

Definition with_current_package v (o : HomebrewService) :=
  {| module := module o; brew_path := brew_path o; packages := packages o;
     state := state o; service_options := service_options o;
     current_package := v; failed := failed o; changed := changed o;
     changed_count := changed_count o; unchanged_count := unchanged_count o;
     message := message o |}.
Definition with_failed v (o : HomebrewService) :=
  {| module := module o; brew_path := brew_path o; packages := packages o;
     state := state o; service_options := service_options o;
     current_package := current_package o; failed := v; changed := changed o;
     changed_count := changed_count o; unchanged_count := unchanged_count o;
     message := message o |}.
Definition with_changed v (o : HomebrewService) :=
  {| module := module o; brew_path := brew_path o; packages := packages o;
     state := state o; service_options := service_options o;
     current_package := current_package o; failed := failed o; changed := v;
     changed_count := changed_count o; unchanged_count := unchanged_count o;
     message := message o |}.
Definition with_changed_count v (o : HomebrewService) :=
  {| module := module o; brew_path := brew_path o; packages := packages o;
     state := state o; service_options := service_options o;
     current_package := current_package o; failed := failed o; changed := changed o;
     changed_count := v; unchanged_count := unchanged_count o;
     message := message o |}.
Definition with_unchanged_count v (o : HomebrewService) :=
  {| module := module o; brew_path := brew_path o; packages := packages o;
     state := state o; service_options := service_options o;
     current_package := current_package o; failed := failed o; changed := changed o;
     changed_count := changed_count o; unchanged_count := v;
     message := message o |}.
Definition with_message v (o : HomebrewService) :=
  {| module := module o; brew_path := brew_path o; packages := packages o;
     state := state o; service_options := service_options o;
     current_package := current_package o; failed := failed o; changed := changed o;
     changed_count := changed_count o; unchanged_count := unchanged_count o;
     message := v |}.

(** The object, and the commands handed to [run_command] so far, oldest
    first. *)
Record machine := Machine {
  self : HomebrewService;
  spawned : list (list pyval)
}.

Inductive exn :=
| HomebrewServiceException (msg : string)
| re_error
| AttributeError
| TypeError.

Inductive outcome (A : Type) :=
| Returned (a : A)
| Raised (e : exn).
Arguments Raised {A}.

(** A method: it may change the object and the world, and returns or
    raises.  What it changed before raising stays changed. *)
Definition M (A : Type) := machine -> outcome A * machine.

Definition ret {A} (a : A) : M A := fun w => (Returned a, w).

Definition bind {A B} (m : M A) (k : A -> M B) : M B :=
  fun w => match m w with
           | (Returned a, w') => k a w'
           | (Raised e, w') => (Raised e, w')
           end.

Definition raise {A} (e : exn) : M A := fun w => (Raised e, w).

Declare Scope py_scope.
Delimit Scope py_scope with py.
Notation "x <- c1 ;; c2" := (bind c1 (fun x => c2))
  (at level 61, c1 at next level, right associativity) : py_scope.
Notation "' pat <- c1 ;; c2" := (bind c1 (fun x => match x with pat => c2 end))
  (at level 61, pat pattern, c1 at next level, right associativity) : py_scope.
Notation "c1 ;; c2" := (bind c1 (fun _ => c2))
  (at level 61, right associativity) : py_scope.
Local Open Scope py_scope.

(** [self.a] *)
Definition attr {A} (a : HomebrewService -> A) : M A :=
  fun w => (Returned (a (self w)), w).

(** [self.a = v], for the plain attributes *)
Definition assign (f : HomebrewService -> HomebrewService) : M unit :=
  fun w => (Returned tt, Machine (f (self w)) (spawned w)).

(** [self.module.run_command(cmd)] *)
Definition module_run_command (cmd : list pyval) : M (Z * string * string) :=
  fun w => (Returned (run_command (module (self w)) (spawned w) cmd),
            Machine (self w) (spawned w ++ [cmd])).

(** [try: m except HomebrewServiceException: pass] *)
Definition try_except_pass {A} (m : M A) : M unit :=
  fun w => match m w with
           | (Returned _, w') => (Returned tt, w')
           | (Raised (HomebrewServiceException _), w') => (Returned tt, w')
           | (Raised e, w') => (Raised e, w')
           end.

(** [for x in l: body(x)] *)
Fixpoint for_each {A} (l : list A) (body : A -> M unit) : M unit :=
  match l with
  | [] => ret tt
  | x :: l' => body x ;; for_each l' body
  end.

(** ** class properties *)

(** The getter of [current_package]. *)
Definition get_current_package : M pyval :=
  v <- attr current_package ;;
  match v with
  | Some package => ret package
  | None => raise AttributeError
  end.

(** The setter of [current_package]. *)
Definition set_current_package (package : pyval) : M unit :=
  if negb (valid_package package) then
    assign (with_current_package (Some PNone)) ;;
    assign (with_failed true) ;;
    assign (with_message ("Invalid package: " ++ format0 package ++ ".")) ;;
    msg <- attr message ;;
    raise (HomebrewServiceException msg)
  else
    assign (with_current_package (Some package)).

(** ** prep *)

Definition _setup_status_vars : M unit :=
  assign (with_failed false) ;;
  assign (with_changed false) ;;
  assign (with_changed_count 0) ;;
  assign (with_unchanged_count 0) ;;
  assign (with_message "").

Definition _status : M (bool * bool * string) :=
  f <- attr failed ;;
  c <- attr changed ;;
  m <- attr message ;;
  ret (f, c, m).

(** The first lines of every per-package method:
    [if not self.valid_package(self.current_package): ... raise]. *)
Definition require_valid_current_package : M pyval :=
  current <- get_current_package ;;
  if negb (valid_package current) then
    assign (with_failed true) ;;
    assign (with_message ("Invalid package: " ++ format0 current ++ ".")) ;;
    msg <- attr message ;;
    raise (HomebrewServiceException msg)
  else ret current.

(** [self.failed = True; self.message = err.strip(); raise ...] *)
Definition fail_with_stderr {A} (err : string) : M A :=
  assign (with_failed true) ;;
  assign (with_message (Py.strip err)) ;;
  msg <- attr message ;;
  raise (HomebrewServiceException msg).

(** [re.compile], with [re.error] raised. *)
Definition re_compile (s : string) : M Re.pattern :=
  match Re.compile s with
  | Re.Compiled p => ret p
  | Re.Error | Re.Unsupported => raise re_error
  end.

(** ** checks *)

Definition _current_package_is_started : M bool :=
  current <- require_valid_current_package ;;
  brew <- attr brew_path ;;
  let cmd := [PStr (format0 brew); PStr ("services" ++ "list")] in
  '(rc, out, err) <- module_run_command cmd ;;
  p <- re_compile ("^" ++ format0 current ++ ".*started") ;;
  ret (existsb (Re.search p) (Py.split Py.newline out)).

(** ** commands *)

(** [opts = [self.brew_path, 'services', verb] + self.service_options +
    [self.current_package]] and [cmd = [opt for opt in opts if opt]] *)
Definition command_vector (brew : pyval) (verb : string)
    (options : list pyval) (current : pyval) : list pyval :=
  let opts := ([brew; PStr "services"; PStr verb] ++ options ++ [current])%list in
  filter truthy opts.

Definition command (verb : string) (current : pyval) : M (list pyval) :=
  brew <- attr brew_path ;;
  options <- attr service_options ;;
  ret (command_vector brew verb options current).

Definition _start_current_package : M bool :=
  current <- require_valid_current_package ;;
  m <- attr module ;;
  if check_mode m then
    assign (with_changed true) ;;
    assign (with_message ("Package would be started: " ++ format0 current)) ;;
    msg <- attr message ;;
    raise (HomebrewServiceException msg)
  else
    cmd <- command "start" current ;;
    '(rc, out, err) <- module_run_command cmd ;;
    if String.eqb err "" then
      n <- attr changed_count ;;
      assign (with_changed_count (n + 1)) ;;
      assign (with_message ("Package started: " ++ format0 current)) ;;
      ret true
    else fail_with_stderr err.

(** [r"^Error: Service `" + r"{0}".format(self.current_package) +
    r"` is not started."] *)
Definition not_started_pattern (current : pyval) : string :=
  "^Error: Service `" ++ format0 current ++ "` is not started.".

Definition _stop_current_package : M bool :=
  current <- require_valid_current_package ;;
  m <- attr module ;;
  if check_mode m then
    assign (with_changed true) ;;
    assign (with_message ("Package would be stopped: " ++ format0 current)) ;;
    msg <- attr message ;;
    raise (HomebrewServiceException msg)
  else
    cmd <- command "stop" current ;;
    '(rc, out, err) <- module_run_command cmd ;;
    let match_ := not_started_pattern current in
    if String.eqb err "" then
      n <- attr changed_count ;;
      assign (with_changed_count (n + 1)) ;;
      assign (with_changed true) ;;
      assign (with_message ("Package stopped: " ++ format0 current)) ;;
      ret true
    else
      p <- re_compile match_ ;;
      if Re.match_ p err then
        n <- attr unchanged_count ;;
        assign (with_unchanged_count (n + 1)) ;;
        assign (with_changed false) ;;
        assign (with_message ("Package already stopped: " ++ format0 current)) ;;
        ret true
      else fail_with_stderr err.

Definition _restart_current_package : M bool :=
  current <- require_valid_current_package ;;
  m <- attr module ;;
  if check_mode m then
    assign (with_changed true) ;;
    assign (with_message ("Package would be restarted: " ++ format0 current)) ;;
    msg <- attr message ;;
    raise (HomebrewServiceException msg)
  else
    cmd <- command "restart" current ;;
    '(rc, out, err) <- module_run_command cmd ;;
    if String.eqb err "" then
      n <- attr changed_count ;;
      assign (with_changed_count (n + 1)) ;;
      assign (with_changed true) ;;
      assign (with_message ("Package restarted: " ++ format0 current)) ;;
      ret true
    else fail_with_stderr err.

(** [for package in self.packages: self.current_package = package;
    per_package()], then [return True]. *)
Definition each_package (per_package : M bool) : M bool :=
  pkgs <- attr packages ;;
  match pkgs with
  | None => raise TypeError
  | Some l =>
      for_each l (fun package =>
        set_current_package package ;;
        per_package ;;
        ret tt) ;;
      ret true
  end.

Definition _start_packages : M bool := each_package _start_current_package.
Definition _stop_packages : M bool := each_package _stop_current_package.
Definition _restart_packages : M bool := each_package _restart_current_package.

(** [if self.packages:] *)
Definition truthy_list {A} (l : option (list A)) : bool :=
  match l with
  | Some (_ :: _) => true
  | _ => false
  end.

Definition _run : M unit :=
  pkgs <- attr packages ;;
  if truthy_list pkgs then
    st <- attr state ;;
    if pyval_eqb st (PStr "started") then _start_packages ;; ret tt
    else if pyval_eqb st (PStr "stopped") then _stop_packages ;; ret tt
    else if pyval_eqb st (PStr "restarted") then _restart_packages ;; ret tt
    else ret tt
  else ret tt.

Definition run : M (bool * bool * string) :=
  try_except_pass _run ;;
  f <- attr failed ;;
  cc <- attr changed_count ;;
  uc <- attr unchanged_count ;;
  (if negb f && (cc + uc >? 1) then
     assign (with_message
       ("Changed: " ++ Py.of_int cc ++ ", Unchanged: " ++ Py.of_int uc))
   else ret tt) ;;
  _status.

(** The object [__init__] leaves behind when it returns: the status
    variables of [_setup_status_vars], the arguments as
    [_setup_instance_vars] stored them ([service_options] already a list)
    and, from [_prep_brew_path], the executable found on the search path. *)
Definition HomebrewService_new (module_ : AnsibleModule) (brew : string)
    (packages_ : option (list pyval)) (state_ : pyval)
    (service_options_ : list pyval) : machine :=
  snd (_setup_status_vars
    (Machine {| module := module_; brew_path := PStr brew;
                packages := packages_; state := state_;
                service_options := service_options_;
                current_package := None;
                failed := false; changed := false;
                changed_count := 0; unchanged_count := 0; message := "" |}
             [])).

(** ** main *)

(** [p['service_options'] = p['service_options'] or []] and the list
    comprehension after it. *)
Definition main_service_options (p_service_options : option (list pyval)) : list pyval :=
  let given :=
    match p_service_options with
    | Some (o :: l) => o :: l
    | _ => []
    end in
  map (fun install_option => PStr ("--" ++ format0 install_option)) given.

(** * Properties *)

(** ** Validation *)

Fixpoint all_chars (ok : ascii -> bool) (s : string) : bool :=
  match s with
  | EmptyString => true
  | String c s' => ok c && all_chars ok s'
  end.

(** The character set of a service name in the specification's words,
    [[\w./+\-:@]]. *)
Definition spec_package_char (c : ascii) : bool :=
  Py.isword c || existsb (Ascii.eqb c) ["."; "/"; "+"; "-"; ":"; "@"]%char.

(** The character set of a search directory in the specification's words,
    [[\w\s:/.\-]]. *)
Definition spec_path_char (c : ascii) : bool :=
  Py.isword c || Py.isspace c || existsb (Ascii.eqb c) [":"; "/"; "."; "-"]%char.

(** The same without the colon, [[\w\s/.\-]]. *)
Definition brew_path_char (c : ascii) : bool :=
  Py.isword c || Py.isspace c || existsb (Ascii.eqb c) ["/"; "."; "-"]%char.

Lemma search_negated_set_all_chars set s :
  negb (Re.search_negated_set set s) = all_chars (Re.in_set set) s.
Proof.
  induction s as [|c s IH]; simpl; [reflexivity|].
  rewrite negb_orb, negb_involutive, IH. reflexivity.
Qed.

Lemma all_chars_ext ok ok' s :
  (forall c, ok c = ok' c) -> all_chars ok s = all_chars ok' s.
Proof.
  intros E. induction s as [|c s IH]; simpl; [reflexivity|].
  now rewrite E, IH.
Qed.

Ltac each_ascii c :=
  destruct c as [[] [] [] [] [] [] [] []]; vm_compute; reflexivity.

(** The compiled package set is the specified one and the comma: [\+-:]
    reads as the range from [+] to [:]. *)
Lemma package_set_chars c :
  Re.in_set INVALID_PACKAGE_REGEX c = spec_package_char c || Ascii.eqb c ",".
Proof. each_ascii c. Qed.

Lemma brew_path_set_chars c :
  Re.in_set INVALID_BREW_PATH_REGEX c = brew_path_char c.
Proof. each_ascii c. Qed.

Lemma path_set_chars c :
  Re.in_set INVALID_PATH_REGEX c = spec_path_char c.
Proof. each_ascii c. Qed.

Lemma create_regex_group_package :
  _create_regex_group VALID_PACKAGE_CHARS = Some INVALID_PACKAGE_REGEX.
Proof. reflexivity. Qed.

Lemma create_regex_group_brew_path :
  _create_regex_group VALID_BREW_PATH_CHARS = Some INVALID_BREW_PATH_REGEX.
Proof. reflexivity. Qed.

Lemma create_regex_group_path :
  _create_regex_group VALID_PATH_CHARS = Some INVALID_PATH_REGEX.
Proof. reflexivity. Qed.

Lemma valid_package_str s :
  valid_package (PStr s) = all_chars (fun c => spec_package_char c || Ascii.eqb c ",") s.
Proof.
  unfold valid_package. rewrite search_negated_set_all_chars.
  apply all_chars_ext, package_set_chars.
Qed.

(** Every name over the specified set is accepted. *)
Lemma valid_package_accepts s :
  all_chars spec_package_char s = true -> valid_package (PStr s) = true.
Proof.
  rewrite valid_package_str.
  induction s as [|c s IH]; simpl; [reflexivity|].
  intros H. apply andb_true_iff in H as [Hc Hs].
  now rewrite Hc, IH.
Qed.

(** C2: a name with a comma, a character outside [[\w./+\-:@]], passes
    [valid_package]; the claim has it rejected. *)
Theorem valid_package_accepts_comma :
  all_chars spec_package_char "foo,bar" = false /\
  valid_package (PStr "foo,bar") = true.
Proof. split; reflexivity. Qed.

Lemma valid_brew_path_str s :
  valid_brew_path (PStr s) = all_chars brew_path_char s.
Proof.
  unfold valid_brew_path. rewrite search_negated_set_all_chars.
  apply all_chars_ext, brew_path_set_chars.
Qed.

(** What [valid_brew_path] accepts. *)
Definition brew_path_ok (d : pyval) : Prop :=
  d = PNone \/ exists s, d = PStr s /\ all_chars brew_path_char s = true.

Lemma valid_brew_path_ok d : valid_brew_path d = true <-> brew_path_ok d.
Proof.
  unfold brew_path_ok. destruct d as [|s|n].
  - simpl. split; auto.
  - rewrite valid_brew_path_str. split.
    + intros H. right. now exists s.
    + intros [H|(t & E & H)]; [discriminate|]. now inversion E; subst.
  - simpl. split; [discriminate|].
    intros [H|(t & E & _)]; discriminate.
Qed.

(** C6, as the code has it: a list of directories is accepted exactly when
    every element is [None] or a string over [[\w\s/.\-]], the set without
    the colon. *)
Theorem valid_path_list_spec (paths : list pyval) :
  valid_path (PathList paths) = true <-> Forall brew_path_ok paths.
Proof.
  simpl. rewrite forallb_forall, Forall_forall.
  split; intros H d Hd; apply valid_brew_path_ok, H, Hd.
Qed.

(** C6, as stated, fails: every character of the directory is in
    [[\w\s:/.\-]], and the list is rejected. *)
Lemma valid_path_list_rejects_colon :
  all_chars spec_path_char "/usr/local:bin" = true /\
  valid_path (PathList [PStr "/usr/local:bin"]) = false.
Proof. split; reflexivity. Qed.

(** ** The per-package loop *)

(** One turn of the loop of [_start_packages] and its siblings. *)
Definition visit (per_package : M bool) (package : pyval) : M unit :=
  set_current_package package ;; per_package ;; ret tt.

(** What [run] does after the [try] statement. *)
Definition summarize : M (bool * bool * string) :=
  f <- attr failed ;;
  cc <- attr changed_count ;;
  uc <- attr unchanged_count ;;
  (if negb f && (cc + uc >? 1) then
     assign (with_message
       ("Changed: " ++ Py.of_int cc ++ ", Unchanged: " ++ Py.of_int uc))
   else ret tt) ;;
  _status.

(** The method [_run] dispatches to, for each desired state. *)
Inductive dispatches : pyval -> string -> M bool -> Prop :=
| dispatch_started : dispatches (PStr "started") "start" _start_current_package
| dispatch_stopped : dispatches (PStr "stopped") "stop" _stop_current_package
| dispatch_restarted : dispatches (PStr "restarted") "restart" _restart_current_package.

Lemma run_eq : run = (try_except_pass _run ;; summarize).
Proof. reflexivity. Qed.

Lemma each_package_eq per w l :
  packages (self w) = Some l ->
  each_package per w = (for_each l (visit per) ;; ret true) w.
Proof. intros E. unfold each_package, bind, attr. rewrite E. reflexivity. Qed.

Lemma _run_dispatch st verb per w x l :
  dispatches st verb per ->
  state (self w) = st ->
  packages (self w) = Some (x :: l) ->
  _run w = (for_each (x :: l) (visit per) ;; ret tt) w.
Proof.
  intros D Es El. unfold _run. unfold bind at 1. unfold attr at 1.
  rewrite El. cbn [truthy_list]. unfold bind at 1. unfold attr at 1.
  rewrite Es.
  destruct D; cbn [pyval_eqb String.eqb Ascii.eqb Bool.eqb];
    unfold _start_packages, _stop_packages, _restart_packages;
    unfold bind at 1; rewrite (each_package_eq _ _ El);
    unfold bind; destruct (for_each (x :: l) _ w) as [[[]|e] w']; reflexivity.
Qed.

Lemma for_each_app {A} (l1 l2 : list A) body w :
  for_each (l1 ++ l2) body w =
  match for_each l1 body w with
  | (Returned _, w') => for_each l2 body w'
  | (Raised e, w') => (Raised e, w')
  end.
Proof.
  revert w. induction l1 as [|x l1 IH]; intros w; simpl; [reflexivity|].
  unfold bind. destruct (body x w) as [[[]|e] w']; [apply IH|reflexivity].
Qed.

(** The loop reads [self.packages] once, before its first turn: a turn
    does the same whatever that attribute holds. *)
Definition with_packages v (o : HomebrewService) :=
  {| module := module o; brew_path := brew_path o; packages := v;
     state := state o; service_options := service_options o;
     current_package := current_package o; failed := failed o; changed := changed o;
     changed_count := changed_count o; unchanged_count := unchanged_count o;
     message := message o |}.

Definition repack v (w : machine) : machine :=
  Machine (with_packages v (self w)) (spawned w).

Ltac run_method :=
  unfold visit, set_current_package, _start_current_package,
    _stop_current_package, _restart_current_package,
    require_valid_current_package, get_current_package, command,
    fail_with_stderr, module_run_command, re_compile, bind, attr, assign,
    ret, raise;
  cbn [self spawned module brew_path packages state service_options
       current_package failed changed changed_count unchanged_count message
       with_current_package with_failed with_changed with_changed_count
       with_unchanged_count with_message with_packages repack negb fst snd].

Lemma visit_repack st verb per v p w :
  dispatches st verb per ->
  visit per p (repack v w) =
  (fst (visit per p w), repack v (snd (visit per p w))).
Proof.
  intros D. destruct D; run_method;
    destruct (valid_package p) eqn:Hv; run_method; rewrite ?Hv; run_method;
    try reflexivity;
    destruct (check_mode (module (self w))); run_method; try reflexivity;
    match goal with |- context [run_command ?m ?h ?c] =>
      destruct (run_command m h c) as [[rc out] err] end;
    destruct (String.eqb err ""); run_method; try reflexivity;
    match goal with |- context [Re.compile ?s] => destruct (Re.compile s) end;
    run_method; try reflexivity;
    match goal with |- context [Re.match_ ?p ?s] => destruct (Re.match_ p s) end;
    reflexivity.
Qed.

Lemma for_each_repack st verb per v l w :
  dispatches st verb per ->
  for_each l (visit per) (repack v w) =
  (fst (for_each l (visit per) w), repack v (snd (for_each l (visit per) w))).
Proof.
  intros D. revert w. induction l as [|p l IH]; intros w; simpl; [reflexivity|].
  unfold bind. rewrite (visit_repack v p w D).
  destruct (visit per p w) as [[[]|e] w']; simpl; [apply IH|reflexivity].
Qed.

(** *** One turn of the loop, case by case *)

Ltac run_cases p w :=
  run_method;
  let Hv := fresh "Hvalid" in
  destruct (valid_package p) eqn:Hv; run_method; rewrite ?Hv; run_method;
  try destruct (check_mode (module (self w))) eqn:?Hc; run_method;
  try match goal with |- context [run_command ?m ?h ?c] =>
        destruct (run_command m h c) as [[?rc ?out] ?err] eqn:?Hrun end;
  run_method;
  try match goal with |- context [String.eqb ?e ""] =>
        destruct (String.eqb e "") eqn:?Herr end;
  run_method;
  try match goal with |- context [Re.compile ?s] =>
        destruct (Re.compile s) eqn:?Hre end;
  run_method;
  try match goal with |- context [Re.match_ ?q ?s] =>
        destruct (Re.match_ q s) eqn:?Hmatch end;
  run_method.

Lemma visit_invalid per p w :
  valid_package p = false ->
  visit per p w =
  (Raised (HomebrewServiceException ("Invalid package: " ++ format0 p ++ ".")),
   Machine (with_message ("Invalid package: " ++ format0 p ++ ".")
              (with_failed true (with_current_package (Some PNone) (self w))))
           (spawned w)).
Proof. intros Hv. run_method. rewrite Hv. reflexivity. Qed.

Lemma visit_check_mode st verb per p w :
  dispatches st verb per ->
  valid_package p = true ->
  check_mode (module (self w)) = true ->
  visit per p w =
  (Raised (HomebrewServiceException
             ("Package would be " ++ format0 st ++ ": " ++ format0 p)),
   Machine (with_message ("Package would be " ++ format0 st ++ ": " ++ format0 p)
              (with_changed true (with_current_package (Some p) (self w))))
           (spawned w)).
Proof.
  intros D Hv Hc.
  destruct D; run_method; rewrite Hv; run_method; rewrite Hv; run_method;
    rewrite Hc; reflexivity.
Qed.

(** The module's configuration is not touched by a turn. *)
Definition same_config (w w' : machine) : Prop :=
  module (self w') = module (self w) /\
  brew_path (self w') = brew_path (self w) /\
  service_options (self w') = service_options (self w) /\
  state (self w') = state (self w) /\
  packages (self w') = packages (self w).

Lemma same_config_refl w : same_config w w.
Proof. repeat split. Qed.

Lemma same_config_trans w1 w2 w3 :
  same_config w1 w2 -> same_config w2 w3 -> same_config w1 w3.
Proof.
  unfold same_config. intros (A1 & A2 & A3 & A4 & A5) (B1 & B2 & B3 & B4 & B5).
  repeat split; congruence.
Qed.

Lemma visit_same_config st verb per p w :
  dispatches st verb per -> same_config w (snd (visit per p w)).
Proof.
  intros D. destruct D; run_cases p w; repeat split.
Qed.

Lemma for_each_same_config st verb per l w :
  dispatches st verb per -> same_config w (snd (for_each l (visit per) w)).
Proof.
  intros D. revert w. induction l as [|p l IH]; intros w; simpl.
  - apply same_config_refl.
  - unfold bind. pose proof (visit_same_config p w D) as Hp.
    destruct (visit per p w) as [[[]|e] w']; simpl in *; [|exact Hp].
    eapply same_config_trans; [exact Hp|apply IH].
Qed.

(** In a live run a [HomebrewServiceException] always comes with
    [failed = True]. *)
Lemma visit_live_raises st verb per p w msg w' :
  dispatches st verb per ->
  check_mode (module (self w)) = false ->
  visit per p w = (Raised (HomebrewServiceException msg), w') ->
  failed (self w') = true.
Proof.
  intros D Hlive. destruct D; run_cases p w; intros H;
    try congruence; inversion H; reflexivity.
Qed.

Lemma for_each_live_raises st verb per l w msg w' :
  dispatches st verb per ->
  check_mode (module (self w)) = false ->
  for_each l (visit per) w = (Raised (HomebrewServiceException msg), w') ->
  failed (self w') = true.
Proof.
  intros D. revert w. induction l as [|p l IH]; intros w Hlive; simpl.
  - discriminate.
  - unfold bind.
    pose proof (visit_same_config p w D) as (Em & _).
    pose proof (fun w1 => @visit_live_raises st verb per p w msg w1 D Hlive) as Hp.
    destruct (visit per p w) as [[[]|e] w1]; simpl in *.
    + apply IH. now rewrite Em.
    + intros H. inversion H; subst. now apply Hp.
Qed.

(** An error stream that is neither empty nor the recognised no-op of
    [stop]: for [stop], [re.match] takes the pattern made of the name and
    finds no match. *)
Definition unrecognized (st current : pyval) (err : string) : Prop :=
  err <> "" /\
  (st = PStr "stopped" ->
   exists q, Re.compile (not_started_pattern current) = Re.Compiled q /\
             Re.match_ q err = false).

Lemma visit_live_failure st verb per p w :
  dispatches st verb per ->
  check_mode (module (self w)) = false ->
  valid_package p = true ->
  let cmd := command_vector (brew_path (self w)) verb (service_options (self w)) p in
  let err := snd (run_command (module (self w)) (spawned w) cmd) in
  unrecognized st p err ->
  visit per p w =
  (Raised (HomebrewServiceException (Py.strip err)),
   Machine (with_message (Py.strip err)
              (with_failed true (with_current_package (Some p) (self w))))
           (spawned w ++ [cmd])).
Proof.
  intros D Hlive Hv cmd err [Hne Hstop]. subst cmd err.
  destruct D; run_method; rewrite Hv; run_method; rewrite Hv; run_method;
    rewrite Hlive; run_method;
    match goal with |- context [run_command ?m ?h ?c] =>
      destruct (run_command m h c) as [[rc out] err] eqn:Hrun end;
    cbn [snd] in Hne, Hstop;
    (destruct (String.eqb_spec err ""); [contradiction|]); run_method;
    try reflexivity.
  destruct (Hstop eq_refl) as (q & Hq & Hm). rewrite Hq. run_method.
  rewrite Hm. reflexivity.
Qed.

(** *** After the loop *)

Lemma summarize_spec w :
  exists msg,
    summarize w =
    (Returned (failed (self w), changed (self w), msg),
     Machine (with_message msg (self w)) (spawned w)) /\
    (msg = message (self w) \/
     failed (self w) = false /\ changed_count (self w) + unchanged_count (self w) > 1 /\
     msg = "Changed: " ++ Py.of_int (changed_count (self w)) ++
           ", Unchanged: " ++ Py.of_int (unchanged_count (self w))).
Proof.
  unfold summarize, _status, bind, attr, assign, ret.
  destruct (failed (self w)) eqn:Hf; cbn [negb andb].
  - exists (message (self w)). split; [|now left].
    destruct w as [[] ?]; simpl in *. now subst.
  - destruct (Z.gtb_spec (changed_count (self w) + unchanged_count (self w)) 1).
    + eexists. split; [|right; split; [reflexivity|split; [lia|reflexivity]]].
      cbn [self spawned with_message failed changed message]. now rewrite Hf.
    + exists (message (self w)). split; [|now left].
      destruct w as [[] ?]; simpl in *. now subst.
Qed.

Lemma run_for_each st verb per w l :
  dispatches st verb per ->
  state (self w) = st ->
  packages (self w) = Some l ->
  run w =
  match for_each l (visit per) w with
  | (Returned _, w') => summarize w'
  | (Raised (HomebrewServiceException _), w') => summarize w'
  | (Raised e, w') => (Raised e, w')
  end.
Proof.
  intros D Es El. rewrite run_eq. unfold bind at 1. unfold try_except_pass.
  destruct l as [|x l].
  - unfold _run. unfold bind at 1. unfold attr at 1. rewrite El. reflexivity.
  - rewrite (@_run_dispatch st verb per w x l D Es El). unfold bind at 1.
    destruct (for_each (x :: l) (visit per) w) as [[[]|[]] w']; reflexivity.
Qed.

(** The [brew services] verb of each desired state. *)
Definition verb_of (st : pyval) : option string :=
  if pyval_eqb st (PStr "started") then Some "start"
  else if pyval_eqb st (PStr "stopped") then Some "stop"
  else if pyval_eqb st (PStr "restarted") then Some "restart"
  else None.

Lemma pyval_eqb_eq v w : pyval_eqb v w = true -> v = w.
Proof.
  destruct v, w; simpl; try discriminate; intros H.
  - reflexivity.
  - apply String.eqb_eq in H. now subst.
  - apply Z.eqb_eq in H. now subst.
Qed.

Lemma verb_of_dispatches st verb :
  verb_of st = Some verb -> exists per, dispatches st verb per.
Proof.
  unfold verb_of.
  destruct (pyval_eqb st (PStr "started")) eqn:E1;
    [|destruct (pyval_eqb st (PStr "stopped")) eqn:E2;
      [|destruct (pyval_eqb st (PStr "restarted")) eqn:E3]];
    intros H; inversion H; subst.
  - apply pyval_eqb_eq in E1; subst. eexists; constructor.
  - apply pyval_eqb_eq in E2; subst. eexists; constructor.
  - apply pyval_eqb_eq in E3; subst. eexists; constructor.
Qed.

(** A turn of a live run that returns has run exactly one command, the
    one of its package. *)
Lemma visit_live_returns st verb per p w w' :
  dispatches st verb per ->
  check_mode (module (self w)) = false ->
  visit per p w = (Returned tt, w') ->
  spawned w' =
    (spawned w ++
     [command_vector (brew_path (self w)) verb (service_options (self w)) p])%list /\
  failed (self w') = failed (self w).
Proof.
  intros D Hlive. destruct D; run_cases p w; intros H;
    try congruence; inversion H; split; reflexivity.
Qed.

Lemma for_each_live_returns st verb per l w w' :
  dispatches st verb per ->
  check_mode (module (self w)) = false ->
  for_each l (visit per) w = (Returned tt, w') ->
  spawned w' =
    (spawned w ++
     map (command_vector (brew_path (self w)) verb (service_options (self w))) l)%list /\
  failed (self w') = failed (self w).
Proof.
  intros D. revert w. induction l as [|p l IH]; intros w Hlive; simpl.
  - unfold ret. intros H. inversion H; subst. now rewrite app_nil_r.
  - unfold bind.
    pose proof (visit_same_config p w D) as (Em & Eb & Eo & _).
    pose proof (fun w1 => @visit_live_returns st verb per p w w1 D Hlive) as Hp.
    destruct (visit per p w) as [[[]|e] w1]; simpl in *; [|discriminate].
    intros H. destruct (Hp w1 eq_refl) as [Hs Hf].
    apply IH in H; [|now rewrite Em]. destruct H as [Hs' Hf'].
    rewrite Hs', Hs, Eb, Eo, <- app_assoc, Hf', Hf. split; reflexivity.
Qed.

Lemma HomebrewService_new_repack m brew l l' st opts :
  HomebrewService_new m brew (Some l') st opts =
  repack (Some l') (HomebrewService_new m brew (Some l) st opts).
Proof. reflexivity. Qed.

(** What a request knows of a shorter one that a live run got through
    without failure: the loop gets through that prefix in the same way. *)
Lemma live_prefix m brew st verb per opts pre rest c msg w1 :
  check_mode m = false ->
  dispatches st verb per ->
  run (HomebrewService_new m brew (Some pre) st opts) = (Returned (false, c, msg), w1) ->
  exists w,
    for_each pre (visit per)
      (HomebrewService_new m brew (Some (pre ++ rest)%list) st opts) = (Returned tt, w) /\
    module (self w) = m /\ brew_path (self w) = PStr brew /\
    service_options (self w) = opts /\
    failed (self w) = false /\ changed (self w) = c /\
    changed_count (self w) = changed_count (self w1) /\
    unchanged_count (self w) = unchanged_count (self w1) /\
    spawned w = spawned w1 /\
    spawned w1 = map (command_vector (PStr brew) verb opts) pre.
Proof.
  intros Hlive D Hrun.
  set (w0 := HomebrewService_new m brew (Some pre) st opts) in *.
  rewrite (@run_for_each st verb per w0 pre D eq_refl eq_refl) in Hrun.
  rewrite (HomebrewService_new_repack m brew pre (pre ++ rest)%list st opts).
  fold w0. rewrite (for_each_repack (Some (pre ++ rest)%list) pre w0 D).
  pose proof (for_each_same_config pre w0 D) as (Em & Eb & Eo & _).
  pose proof (fun msg' w' => @for_each_live_raises st verb per pre w0 msg' w' D Hlive) as Hraise.
  pose proof (fun w' => @for_each_live_returns st verb per pre w0 w' D Hlive) as Hret.
  destruct (for_each pre (visit per) w0) as [[[]|e] w'] eqn:Hloop; cbn [fst snd] in *.
  - destruct (summarize_spec w') as (msg' & Hsum & _). rewrite Hsum in Hrun.
    inversion Hrun; subst. destruct (Hret w' eq_refl) as [Hs _].
    exists (repack (Some (pre ++ rest)%list) w'). cbn.
    repeat split; auto.
  - destruct e; try discriminate.
    destruct (summarize_spec w') as (msg' & Hsum & _). rewrite Hsum in Hrun.
    inversion Hrun. rewrite (Hraise _ _ eq_refl) in *. discriminate.
Qed.

Lemma summarize_failed w :
  failed (self w) = true ->
  summarize w = (Returned (true, changed (self w), message (self w)), w).
Proof.
  intros Hf. unfold summarize, _status, bind, attr, assign, ret.
  rewrite Hf. cbn [negb andb]. rewrite Hf. reflexivity.
Qed.

(** ** Live runs *)


(** C3, as the code has it: in a live run a malformed service name ends
    the run when the loop reaches it.  The result is failed with the message
    [Invalid package: <name>.]; no command runs for it or for a later
    service; the commands of the services before it have run, one each. *)
Theorem invalid_name_stops_run m brew st verb opts pre bad post c msg w1 :
  check_mode m = false ->
  verb_of st = Some verb ->
  run (HomebrewService_new m brew (Some pre) st opts) = (Returned (false, c, msg), w1) ->
  valid_package bad = false ->
  let r := run (HomebrewService_new m brew (Some (pre ++ bad :: post)%list) st opts) in
  fst r = Returned (true, c, "Invalid package: " ++ format0 bad ++ ".") /\
  spawned (snd r) = map (command_vector (PStr brew) verb opts) pre /\
  changed_count (self (snd r)) = changed_count (self w1) /\
  unchanged_count (self (snd r)) = unchanged_count (self w1).
Proof.
  intros Hlive Hverb Hpre Hv r.
  destruct (verb_of_dispatches _ Hverb) as [per D].
  destruct (@live_prefix m brew st verb per opts pre (bad :: post) c msg w1 Hlive D Hpre)
    as (w & Hloop & Em & Eb & Eo & Ef & Ec & Ecc & Euc & Es & Es1).
  assert (Hr : r =
    (Returned (true, c, "Invalid package: " ++ format0 bad ++ "."),
     Machine (with_message ("Invalid package: " ++ format0 bad ++ ".")
                (with_failed true (with_current_package (Some PNone) (self w))))
             (spawned w1))).
  { subst r.
    rewrite (@run_for_each st verb per
               (HomebrewService_new m brew (Some (pre ++ bad :: post)%list) st opts)
               (pre ++ bad :: post)%list D eq_refl eq_refl).
    rewrite for_each_app, Hloop.
    cbn [for_each]. unfold bind at 1.
    rewrite (@visit_invalid per bad w Hv).
    rewrite summarize_failed by reflexivity.
    cbn [self changed message with_message with_failed with_current_package].
    rewrite Es, Ec. reflexivity. }
  rewrite Hr. cbn. rewrite Ecc, Euc, Es1. repeat split.
Qed.

(** A module for examples: [run_command] answers on the error stream by
    the last word of the command, the service name, and with nothing for a
    name that is not listed. *)
Fixpoint stderr_of (answers : list (string * string)) (name : pyval) : string :=
  match answers with
  | [] => ""
  | (n, err) :: rest => if pyval_eqb name (PStr n) then err else stderr_of rest name
  end.

Definition scripted (check : bool) (answers : list (string * string)) : AnsibleModule :=
  {| check_mode := check;
     run_command := fun _ cmd => (0, "", stderr_of answers (last cmd PNone)) |}.

Definition default_brew : string := "/usr/local/bin/brew".



Lemma invalid_name_stops_run_witness :
  let m := scripted false [] in
  let r := run (HomebrewService_new m default_brew
                  (Some [PStr "foo"; PStr "b!r"; PStr "baz"]) (PStr "started") []) in
  fst r = Returned (true, false, "Invalid package: b!r.") /\
  spawned (snd r) = [[PStr default_brew; PStr "services"; PStr "start"; PStr "foo"]] /\
  changed_count (self (snd r)) = 1 /\
  unchanged_count (self (snd r)) = 0.
Proof.
  intros m.
  apply (@invalid_name_stops_run m default_brew (PStr "started") "start" []
           [PStr "foo"] (PStr "b!r") [PStr "baz"] false "Package started: foo"
           (snd (run (HomebrewService_new m default_brew (Some [PStr "foo"])
                        (PStr "started") [])))).
  - reflexivity.
  - reflexivity.
  - reflexivity.
  - reflexivity.
Defined.

(** C3, as stated, fails: the request holds a malformed name, and the
    command of the well-formed name before it has run. *)
Lemma command_runs_before_invalid_name :
  let r := run (HomebrewService_new (scripted false []) default_brew
                  (Some [PStr "foo"; PStr "b!r"]) (PStr "started") []) in
  valid_package (PStr "b!r") = false /\
  fst r = Returned (true, false, "Invalid package: b!r.") /\
  spawned (snd r) <> [].
Proof. repeat split. discriminate. Qed.

(** A live turn for a well-formed name runs the command of that name,
    however the turn ends. *)
Lemma visit_live_spawns st verb per p w :
  dispatches st verb per ->
  check_mode (module (self w)) = false ->
  valid_package p = true ->
  spawned (snd (visit per p w)) =
  (spawned w ++
   [command_vector (brew_path (self w)) verb (service_options (self w)) p])%list.
Proof.
  intros D Hlive Hv. destruct D; run_cases p w; try congruence; reflexivity.
Qed.

Lemma summarize_spawned w : spawned (snd (summarize w)) = spawned w.
Proof.
  destruct (summarize_spec w) as (msg & E & _). rewrite E. reflexivity.
Qed.

(** [run] on a request of one service, in terms of its one turn. *)
Lemma run_single st verb per m b p opts :
  dispatches st verb per ->
  run (HomebrewService_new m b (Some [p]) st opts) =
  match visit per p (HomebrewService_new m b (Some [p]) st opts) with
  | (Returned _, w') => summarize w'
  | (Raised (HomebrewServiceException _), w') => summarize w'
  | (Raised e, w') => (Raised e, w')
  end.
Proof.
  intros D.
  rewrite (@run_for_each st verb per
             (HomebrewService_new m b (Some [p]) st opts) [p] D eq_refl eq_refl).
  cbn [for_each]. unfold bind, ret.
  destruct (visit per p _) as [[[]|e] w']; reflexivity.
Qed.

(** C1: a live [started] request of one service whose command leaves the
    error stream empty counts one change and names the package, and
    returns [changed = False]: [_start_current_package] never sets the
    flag that [_stop_current_package] and [_restart_current_package] set. *)
Theorem start_leaves_changed_false m b opts :
  check_mode m = false ->
  snd (run_command m [] (command_vector (PStr b) "start" opts (PStr "foo"))) = "" ->
  let r := run (HomebrewService_new m b (Some [PStr "foo"]) (PStr "started") opts) in
  fst r = Returned (false, false, "Package started: foo") /\
  changed_count (self (snd r)) = 1.
Proof.
  intros Hlive Herr r. subst r.
  rewrite (run_single m b (PStr "foo") opts dispatch_started).
  unfold HomebrewService_new. cbn [snd _setup_status_vars].
  run_method. cbn. rewrite Hlive. cbn.
  destruct (run_command m [] _) as [[rc out] err]. cbn in Herr. subst err.
  cbn. split; reflexivity.
Qed.

Lemma start_leaves_changed_false_witness :
  let r := run (HomebrewService_new (scripted false []) default_brew
                  (Some [PStr "foo"]) (PStr "started") []) in
  fst r = Returned (false, false, "Package started: foo") /\
  changed_count (self (snd r)) = 1.
Proof.
  apply (@start_leaves_changed_false (scripted false []) default_brew []).
  - reflexivity.
  - reflexivity.
Defined.

(** ** The command vector *)

Lemma main_service_options_map given :
  main_service_options (Some given) =
  map (fun o => PStr ("--" ++ format0 o)) given.
Proof. destruct given; reflexivity. Qed.

Lemma filter_truthy_prefixed given :
  filter truthy (map (fun o => PStr ("--" ++ format0 o)) given) =
  map (fun o => PStr ("--" ++ format0 o)) given.
Proof.
  induction given as [|o given IH]; [reflexivity|].
  cbn [map filter].
  change (truthy (PStr ("--" ++ format0 o))) with true.
  cbv iota. now rewrite IH.
Qed.

Lemma command_vector_prefixed b verb given p :
  b <> "" -> verb <> "" ->
  command_vector (PStr b) verb (main_service_options (Some given)) p =
  ([PStr b; PStr "services"; PStr verb]
   ++ map (fun o => PStr ("--" ++ format0 o)) given
   ++ (if truthy p then [p] else []))%list.
Proof.
  intros Hb Hverb. unfold command_vector. rewrite main_service_options_map.
  destruct b as [|c b]; [contradiction|].
  destruct verb as [|c' verb]; [contradiction|].
  rewrite !filter_app, filter_truthy_prefixed. reflexivity.
Qed.

Lemma verb_nonempty st verb : verb_of st = Some verb -> verb <> "".
Proof.
  intros H. destruct (verb_of_dispatches _ H) as [per D].
  destruct D; discriminate.
Qed.

(** C4, as the code has it: every entry of [service_options] is prefixed
    with [--] and stands in the command vector, in order, between the verb
    and the service name, the empty string as the word [--]; what the
    filter drops is a falsy word of the assembled vector, such as an empty
    service name. *)
Theorem options_prefixed_and_kept m b st verb given p :
  check_mode m = false ->
  verb_of st = Some verb ->
  b <> "" ->
  valid_package p = true ->
  spawned (snd (run (HomebrewService_new m b (Some [p]) st
                       (main_service_options (Some given))))) =
  [([PStr b; PStr "services"; PStr verb]
    ++ map (fun o => PStr ("--" ++ format0 o)) given
    ++ (if truthy p then [p] else []))%list].
Proof.
  intros Hlive Hverb Hb Hv.
  destruct (verb_of_dispatches _ Hverb) as [per D].
  rewrite (run_single m b p (main_service_options (Some given)) D).
  set (w0 := HomebrewService_new m b (Some [p]) st
               (main_service_options (Some given))).
  assert (Hs : spawned (snd (visit per p w0)) =
               [command_vector (PStr b) verb (main_service_options (Some given)) p]).
  { rewrite (@visit_live_spawns st verb per p w0 D Hlive Hv). reflexivity. }
  rewrite (command_vector_prefixed given p Hb (verb_nonempty _ Hverb)) in Hs.
  destruct (visit per p w0) as [[[]|[]] w']; cbn [snd] in *;
    rewrite ?summarize_spawned; exact Hs.
Qed.

Lemma options_prefixed_and_kept_witness :
  spawned (snd (run (HomebrewService_new (scripted false []) default_brew
                       (Some [PStr "foo"]) (PStr "restarted")
                       (main_service_options (Some [PStr "verbose"; PStr ""]))))) =
  [[PStr default_brew; PStr "services"; PStr "restart";
    PStr "--verbose"; PStr "--"; PStr "foo"]].
Proof.
  apply (@options_prefixed_and_kept (scripted false []) default_brew
           (PStr "restarted") "restart" [PStr "verbose"; PStr ""] (PStr "foo")).
  - reflexivity.
  - reflexivity.
  - discriminate.
  - reflexivity.
Defined.

(** C4, as stated, fails: the empty option is in the command that runs,
    as the word [--]. *)
Lemma empty_option_is_not_dropped :
  spawned (snd (run (HomebrewService_new (scripted false []) default_brew
                       (Some [PStr "foo"]) (PStr "started")
                       (main_service_options (Some [PStr ""]))))) =
  [[PStr default_brew; PStr "services"; PStr "start"; PStr "--"; PStr "foo"]] /\
  [[PStr default_brew; PStr "services"; PStr "start"; PStr "--"; PStr "foo"]] <>
  [[PStr default_brew; PStr "services"; PStr "start"; PStr "foo"]].
Proof. split; [reflexivity|discriminate]. Qed.

(** ** The status query *)

(** C5: the status query runs the two-word command [brew serviceslist]:
    the literals ["services"] and ["list"] stand in the source without a
    comma between them and make one word. *)
Theorem status_query_runs_serviceslist w p :
  current_package (self w) = Some p ->
  valid_package p = true ->
  spawned (snd (_current_package_is_started w)) =
    (spawned w ++ [[PStr (format0 (brew_path (self w))); PStr "serviceslist"]])%list /\
  [PStr (format0 (brew_path (self w))); PStr "serviceslist"] <>
  [PStr (format0 (brew_path (self w))); PStr "services"; PStr "list"].
Proof.
  intros Hp Hv. split; [|discriminate].
  unfold _current_package_is_started. run_method. rewrite Hp. run_method.
  rewrite Hv. run_method.
  destruct (run_command _ _ _) as [[rc out] err].
  destruct (Re.compile _); reflexivity.
Qed.

Lemma status_query_runs_serviceslist_witness :
  spawned (snd (_current_package_is_started
                  (Machine (with_current_package (Some (PStr "foo"))
                              (self (HomebrewService_new (scripted false []) default_brew
                                       (Some [PStr "foo"]) (PStr "started") [])))
                           []))) =
    [[PStr default_brew; PStr "serviceslist"]] /\
  [PStr default_brew; PStr "serviceslist"] <>
  [PStr default_brew; PStr "services"; PStr "list"].
Proof.
  apply (@status_query_runs_serviceslist
           (Machine (with_current_package (Some (PStr "foo"))
                       (self (HomebrewService_new (scripted false []) default_brew
                                (Some [PStr "foo"]) (PStr "started") [])))
                    [])
           (PStr "foo")).
  - reflexivity.
  - reflexivity.
Defined.

(** ** The recognised no-op of [stop] *)

(** A text as a pattern: each character once. *)
Fixpoint literally (s : string) : list (Re.atom * Re.quantifier) :=
  match s with
  | EmptyString => []
  | String c s' => (Re.Char c, Re.Once) :: literally s'
  end.

Lemma match_here_literally s p err :
  Re.match_here (literally s ++ p)%list err = true <->
  exists rest, err = s ++ rest /\ Re.match_here p rest = true.
Proof.
  revert err. induction s as [|c s IH]; intros err.
  - cbn [literally app]. split.
    + intros H. now exists err.
    + intros (rest & E & H). cbn in E. now subst.
  - cbn [literally app Re.match_here]. destruct err as [|d err].
    + split; [discriminate|]. intros (rest & E & _). discriminate.
    + cbn [Re.atom_matches]. rewrite andb_true_iff, IH. split.
      * intros [Hd (rest & E & H)]. apply Ascii.eqb_eq in Hd. subst.
        now exists rest.
      * intros (rest & E & H). cbn in E. inversion E; subst.
        split; [apply Ascii.eqb_refl|]. now exists rest.
Qed.

(** The error stream starts with the diagnostic of [brew services stop]
    for a service that does not run, followed by one more character that
    is not a newline: what [^Error: Service `<name>` is not started.]
    says when the name holds no metacharacter. *)
Definition says_not_started (name err : string) : Prop :=
  exists c rest,
    err = ("Error: Service `" ++ name ++ "` is not started") ++ String c rest /\
    c <> Py.newline.

Lemma not_started_pattern_foo :
  Re.compile (not_started_pattern (PStr "foo")) =
  Re.Compiled (Re.Pattern true
    (literally "Error: Service `foo` is not started" ++ [(Re.AnyChar, Re.Once)])%list).
Proof. reflexivity. Qed.

Lemma match_not_started_foo q err :
  Re.compile (not_started_pattern (PStr "foo")) = Re.Compiled q ->
  Re.match_ q err = true <-> says_not_started "foo" err.
Proof.
  rewrite not_started_pattern_foo. intros E.
  assert (Eq : q = Re.Pattern true
    (literally "Error: Service `foo` is not started" ++ [(Re.AnyChar, Re.Once)])%list)
    by congruence.
  rewrite Eq. unfold Re.match_. cbn [Re.body]. rewrite match_here_literally.
  unfold says_not_started. split.
  - intros (rest & Eerr & H). destruct rest as [|c rest]; [discriminate|].
    cbn in H. exists c, rest. split; [exact Eerr|].
    intros ->. discriminate.
  - intros (c & rest & Eerr & Hc). exists (String c rest). split; [exact Eerr|].
    cbn. destruct (Ascii.eqb_spec c Py.newline); [contradiction|reflexivity].
Qed.

(** C7: a live [stopped] request on [foo].  When the error stream has the
    form of [^Error: Service `foo` is not started.], the run is a
    recognised no-op: not failed, not changed, one service counted as
    unchanged, message [Package already stopped: foo].  Any other error
    stream that is not empty makes the run failed, with the stripped error
    text as message. *)
Theorem stop_foo_classified m b opts :
  check_mode m = false ->
  let err := snd (run_command m [] (command_vector (PStr b) "stop" opts (PStr "foo"))) in
  let r := run (HomebrewService_new m b (Some [PStr "foo"]) (PStr "stopped") opts) in
  (says_not_started "foo" err ->
   fst r = Returned (false, false, "Package already stopped: foo") /\
   unchanged_count (self (snd r)) = 1 /\
   changed_count (self (snd r)) = 0) /\
  (err <> "" -> ~ says_not_started "foo" err ->
   fst r = Returned (true, false, Py.strip err) /\
   unchanged_count (self (snd r)) = 0).
Proof.
  intros Hlive err r. subst r.
  rewrite (run_single m b (PStr "foo") opts dispatch_stopped).
  unfold HomebrewService_new. cbn [snd _setup_status_vars].
  run_method. cbn [valid_package]. cbn - [Re.compile not_started_pattern command_vector Py.strip].
  rewrite Hlive. cbn - [Re.compile not_started_pattern command_vector Py.strip].
  subst err.
  destruct (run_command m [] _) as [[rc out] err].
  cbn - [Re.compile not_started_pattern command_vector Py.strip].
  pose proof (@match_not_started_foo _ err not_started_pattern_foo) as Hm.
  rewrite not_started_pattern_foo.
  split.
  - intros Hsays. pose proof Hsays as (c & rest & E & _).
    destruct (String.eqb_spec err ""); [subst; discriminate|].
    apply Hm in Hsays. rewrite Hsays. cbn. repeat split.
  - intros Hne Hnot. destruct (String.eqb_spec err ""); [contradiction|].
    destruct (Re.match_ _ err) eqn:Hmatch.
    + exfalso. apply Hnot, Hm. reflexivity.
    + cbn. repeat split.
Qed.

Lemma stop_foo_classified_witness :
  let r := run (HomebrewService_new
                  (scripted false [("foo", "Error: Service `foo` is not started.")])
                  default_brew (Some [PStr "foo"]) (PStr "stopped") []) in
  fst r = Returned (false, false, "Package already stopped: foo") /\
  unchanged_count (self (snd r)) = 1 /\
  changed_count (self (snd r)) = 0.
Proof.
  apply (proj1 (@stop_foo_classified
                  (scripted false [("foo", "Error: Service `foo` is not started.")])
                  default_brew [] eq_refl)).
  exists "."%char, "". split; [reflexivity|discriminate].
Defined.

(** ** Check mode *)

Lemma visit_check_mode_spawned st verb per p w :
  dispatches st verb per ->
  check_mode (module (self w)) = true ->
  spawned (snd (visit per p w)) = spawned w.
Proof.
  intros D Hc. destruct (valid_package p) eqn:Hv.
  - now rewrite (@visit_check_mode st verb per p w D Hv Hc).
  - now rewrite (@visit_invalid per p w Hv).
Qed.

Lemma for_each_check_mode_spawned st verb per l w :
  dispatches st verb per ->
  check_mode (module (self w)) = true ->
  spawned (snd (for_each l (visit per) w)) = spawned w.
Proof.
  intros D. revert w. induction l as [|p l IH]; intros w Hc; [reflexivity|].
  cbn [for_each]. unfold bind.
  pose proof (visit_check_mode_spawned p w D Hc) as Hs.
  pose proof (visit_same_config p w D) as (Em & _).
  destruct (visit per p w) as [[[]|e] w']; cbn [snd] in *; [|exact Hs].
  rewrite IH; [exact Hs|]. now rewrite Em.
Qed.

(** For a state that is none of the three, [_run] does nothing. *)
Lemma run_other_state w :
  verb_of (state (self w)) = None ->
  run w = summarize w.
Proof.
  intros H. rewrite run_eq. unfold bind at 1. unfold try_except_pass.
  unfold _run, bind, attr, ret. unfold verb_of in H.
  destruct (truthy_list (packages (self w))); [|reflexivity].
  destruct (pyval_eqb (state (self w)) (PStr "started")); [discriminate|].
  destruct (pyval_eqb (state (self w)) (PStr "stopped")); [discriminate|].
  destruct (pyval_eqb (state (self w)) (PStr "restarted")); [discriminate|].
  reflexivity.
Qed.

Lemma run_no_packages w :
  truthy_list (packages (self w)) = false ->
  run w = summarize w.
Proof.
  intros H. rewrite run_eq. unfold bind at 1. unfold try_except_pass.
  unfold _run, bind, attr, ret. rewrite H. reflexivity.
Qed.

Lemma run_check_mode_spawned w :
  check_mode (module (self w)) = true ->
  spawned (snd (run w)) = spawned w.
Proof.
  intros Hc.
  destruct (verb_of (state (self w))) as [verb|] eqn:Hverb;
    [|rewrite (run_other_state w Hverb); apply summarize_spawned].
  destruct (verb_of_dispatches _ Hverb) as [per D].
  destruct (packages (self w)) as [l|] eqn:El;
    [|rewrite run_no_packages by (now rewrite El); apply summarize_spawned].
  rewrite (@run_for_each _ verb per w l D eq_refl El).
  pose proof (for_each_check_mode_spawned l w D Hc) as Hs.
  destruct (for_each l (visit per) w) as [[[]|[]] w']; cbn [snd] in *;
    rewrite ?summarize_spawned; exact Hs.
Qed.

(** C9: in check mode [run] hands no command to [run_command], whatever
    the services, the state and the options; and the request [["foo"]]
    with state [started] returns changed, not failed, with the message
    [Package would be started: foo]. *)
Theorem check_mode_spawns_nothing m b pkgs st opts :
  check_mode m = true ->
  spawned (snd (run (HomebrewService_new m b pkgs st opts))) = [] /\
  fst (run (HomebrewService_new m b (Some [PStr "foo"]) (PStr "started") opts)) =
    Returned (false, true, "Package would be started: foo").
Proof.
  intros Hc. split.
  - now rewrite run_check_mode_spawned.
  - rewrite (run_single m b (PStr "foo") opts dispatch_started).
    rewrite (@visit_check_mode _ _ _ (PStr "foo")
               (HomebrewService_new m b (Some [PStr "foo"]) (PStr "started") opts)
               dispatch_started eq_refl Hc).
    reflexivity.
Qed.

Lemma check_mode_spawns_nothing_witness :
  spawned (snd (run (HomebrewService_new (scripted true [("foo", "Error: no")])
                       default_brew (Some [PStr "foo"; PStr "bar"]) (PStr "restarted")
                       [PStr "--verbose"]))) = [] /\
  fst (run (HomebrewService_new (scripted true [("foo", "Error: no")])
              default_brew (Some [PStr "foo"]) (PStr "started") [PStr "--verbose"])) =
    Returned (false, true, "Package would be started: foo").
Proof.
  apply (@check_mode_spawns_nothing (scripted true [("foo", "Error: no")])
           default_brew (Some [PStr "foo"; PStr "bar"]) (PStr "restarted")
           [PStr "--verbose"]).
  reflexivity.
Defined.

(** C10: in check mode, with a well-formed first service, the run ends in
    the first turn of the loop.  The result is the would-be change of the
    first service alone, whatever follows it in the list, well-formed or
    not; both counters stay at zero, so no summary replaces the message; no
    command runs; the first service is the last one looked at. *)
Theorem check_mode_first_only m b st verb p rest opts :
  check_mode m = true ->
  verb_of st = Some verb ->
  valid_package p = true ->
  let r := run (HomebrewService_new m b (Some (p :: rest)) st opts) in
  fst r = Returned (false, true, "Package would be " ++ format0 st ++ ": " ++ format0 p) /\
  changed_count (self (snd r)) = 0 /\
  unchanged_count (self (snd r)) = 0 /\
  spawned (snd r) = [] /\
  current_package (self (snd r)) = Some p.
Proof.
  intros Hc Hverb Hv r.
  destruct (verb_of_dispatches _ Hverb) as [per D].
  assert (Hr : r =
    (Returned (false, true, "Package would be " ++ format0 st ++ ": " ++ format0 p),
     Machine (with_message ("Package would be " ++ format0 st ++ ": " ++ format0 p)
                (with_changed true (with_current_package (Some p)
                   (self (HomebrewService_new m b (Some (p :: rest)) st opts)))))
             [])).
  { subst r.
    rewrite (@run_for_each st verb per
               (HomebrewService_new m b (Some (p :: rest)) st opts)
               (p :: rest) D eq_refl eq_refl).
    cbn [for_each]. unfold bind at 1.
    rewrite (@visit_check_mode st verb per p
               (HomebrewService_new m b (Some (p :: rest)) st opts) D Hv Hc).
    reflexivity. }
  rewrite Hr. repeat split.
Qed.

Lemma check_mode_first_only_witness :
  let r := run (HomebrewService_new (scripted true []) default_brew
                  (Some [PStr "foo"; PStr "b!r"; PStr "baz"]) (PStr "stopped") []) in
  fst r = Returned (false, true, "Package would be stopped: foo") /\
  changed_count (self (snd r)) = 0 /\
  unchanged_count (self (snd r)) = 0 /\
  spawned (snd r) = [] /\
  current_package (self (snd r)) = Some (PStr "foo").
Proof.
  apply (@check_mode_first_only (scripted true []) default_brew (PStr "stopped")
           "stop" (PStr "foo") [PStr "b!r"; PStr "baz"] []).
  - reflexivity.
  - reflexivity.
  - reflexivity.
Defined.

(** * More of the class *)

(** ** Validation, exactly *)

(** X1: [valid_package] accepts [None] and the strings over [[\w./+\-:@]] and
    the comma, the empty string among them, and nothing else. *)
Theorem valid_package_exact (package : pyval) :
  valid_package package = true <->
  package = PNone \/
  exists s, package = PStr s /\
            all_chars (fun c => spec_package_char c || Ascii.eqb c ",") s = true.
Proof.
  destruct package as [|s|n].
  - split; [now left|reflexivity].
  - rewrite valid_package_str. split.
    + intros H. right. now exists s.
    + intros [H|(t & E & H)]; [discriminate|]. now inversion E; subst.
  - split; [discriminate|]. intros [H|(t & E & _)]; discriminate.
Qed.

Lemma brew_path_char_no_colon c :
  Ascii.eqb c ":" = false -> brew_path_char c = spec_path_char c.
Proof.
  destruct c as [[] [] [] [] [] [] [] []]; vm_compute; intros H;
    try reflexivity; discriminate.
Qed.

Lemma split_colon_pieces s :
  forallb (all_chars brew_path_char) (Py.split ":" s) = all_chars spec_path_char s.
Proof.
  induction s as [|c s IH]; [reflexivity|].
  cbn [Py.split all_chars].
  destruct (Ascii.eqb c ":") eqn:Ec.
  - apply Ascii.eqb_eq in Ec. subst c. cbn [forallb all_chars]. rewrite IH.
    reflexivity.
  - rewrite <- (brew_path_char_no_colon c Ec), <- IH.
    destruct (Py.split ":" s) as [|h t]; cbn [forallb all_chars].
    + now rewrite !andb_true_r.
    + now rewrite andb_assoc.
Qed.

Lemma forallb_of_map {A B} (f : B -> bool) (g : A -> B) l :
  forallb f (map g l) = forallb (fun x => f (g x)) l.
Proof. induction l as [|x l IH]; simpl; [reflexivity|]. now rewrite IH. Qed.

Lemma forallb_same {A} (f g : A -> bool) l :
  (forall x, f x = g x) -> forallb f l = forallb g l.
Proof.
  intros E. induction l as [|x l IH]; simpl; [reflexivity|]. now rewrite E, IH.
Qed.

(** X2: The two forms of a search path agree: the list that [main] and the
    [path] setter make of a string with [split(':')] is valid exactly when
    the string is.  The colon, which only the string form allows, is gone
    from the pieces. *)
Theorem valid_path_split (s : string) :
  valid_path (PathList (map PStr (Py.split ":" s))) = valid_path (PathStr s).
Proof.
  cbn [valid_path]. rewrite forallb_of_map.
  rewrite search_negated_set_all_chars.
  rewrite (all_chars_ext _ _ s path_set_chars), <- split_colon_pieces.
  apply forallb_same. intros p. apply valid_brew_path_str.
Qed.

(** X3: A search path given as one string is accepted exactly when each of
    its characters is in [[\w\s:/.\-]]; the empty string is. *)
Theorem valid_path_string (s : string) :
  valid_path (PathStr s) = all_chars spec_path_char s.
Proof.
  cbn [valid_path]. rewrite search_negated_set_all_chars.
  apply all_chars_ext, path_set_chars.
Qed.

(** ** Runs that do nothing *)

(** X4: Without services ([None] or an empty list), or with a state that is
    not exactly [started], [stopped] or [restarted], [run] returns
    [(False, False, '')], runs no command and leaves the object as it
    was. *)
Theorem run_without_work m b pkgs st opts :
  truthy_list pkgs = false \/ verb_of st = None ->
  run (HomebrewService_new m b pkgs st opts) =
  (Returned (false, false, ""), HomebrewService_new m b pkgs st opts).
Proof.
  intros [H|H].
  - rewrite run_no_packages by exact H. reflexivity.
  - rewrite run_other_state by exact H. reflexivity.
Qed.

Lemma run_without_work_witness :
  run (HomebrewService_new (scripted false []) default_brew
         (Some [PStr "foo"]) (PStr "Started") []) =
  (Returned (false, false, ""),
   HomebrewService_new (scripted false []) default_brew
     (Some [PStr "foo"]) (PStr "Started") []).
Proof.
  apply (@run_without_work (scripted false []) default_brew
           (Some [PStr "foo"]) (PStr "Started") []).
  right. reflexivity.
Defined.

(** ** Live runs that get through the list *)

Lemma visit_live_counts st verb per p w w' :
  dispatches st verb per ->
  check_mode (module (self w)) = false ->
  visit per p w = (Returned tt, w') ->
  valid_package p = true /\
  changed_count (self w') + unchanged_count (self w') =
    changed_count (self w) + unchanged_count (self w) + 1 /\
  changed_count (self w) <= changed_count (self w') /\
  unchanged_count (self w) <= unchanged_count (self w').
Proof.
  intros D Hlive. destruct D; run_cases p w; intros H;
    try congruence; inversion H; cbn; repeat split; lia.
Qed.

Lemma for_each_live_counts st verb per l w w' :
  dispatches st verb per ->
  check_mode (module (self w)) = false ->
  for_each l (visit per) w = (Returned tt, w') ->
  forallb valid_package l = true /\
  changed_count (self w') + unchanged_count (self w') =
    changed_count (self w) + unchanged_count (self w) + Z.of_nat (List.length l) /\
  changed_count (self w) <= changed_count (self w') /\
  unchanged_count (self w) <= unchanged_count (self w').
Proof.
  intros D. revert w. induction l as [|p l IH]; intros w Hlive.
  - cbn. unfold ret. intros H. inversion H; subst. repeat split; lia.
  - cbn [for_each]. unfold bind.
    pose proof (visit_same_config p w D) as (Em & _).
    pose proof (fun w1 => @visit_live_counts st verb per p w w1 D Hlive) as Hp.
    destruct (visit per p w) as [[[]|e] w1]; cbn [snd] in *; [|discriminate].
    intros H. destruct (Hp w1 eq_refl) as (Hv & Hsum & Hc & Hu).
    apply IH in H; [|now rewrite Em]. destruct H as (Hvl & Hsum' & Hc' & Hu').
    cbn [forallb List.length]. rewrite Hv, Hvl. repeat split; lia.
Qed.

Lemma summarize_summary w :
  failed (self w) = false ->
  changed_count (self w) + unchanged_count (self w) > 1 ->
  summarize w =
  (Returned (false, changed (self w),
             "Changed: " ++ Py.of_int (changed_count (self w)) ++
             ", Unchanged: " ++ Py.of_int (unchanged_count (self w))),
   Machine (with_message
              ("Changed: " ++ Py.of_int (changed_count (self w)) ++
               ", Unchanged: " ++ Py.of_int (unchanged_count (self w)))
              (self w))
           (spawned w)).
Proof.
  intros Hf Hn. unfold summarize, _status, bind, attr, assign, ret.
  rewrite Hf. cbn [negb andb].
  destruct (Z.gtb_spec (changed_count (self w) + unchanged_count (self w)) 1); [|lia].
  cbn [self spawned with_message failed changed message]. now rewrite Hf.
Qed.

(** X5: A live run that returns without failure has handled every service of
    the request once and in order: all names are well-formed, the commands
    that ran are those of the services, one each, and the two counters add
    up to the number of services.  With two services or more the message is
    the summary of the counters. *)
Theorem live_run_handles_all m b st verb opts pkgs c msg :
  check_mode m = false ->
  verb_of st = Some verb ->
  let r := run (HomebrewService_new m b (Some pkgs) st opts) in
  fst r = Returned (false, c, msg) ->
  forallb valid_package pkgs = true /\
  spawned (snd r) = map (command_vector (PStr b) verb opts) pkgs /\
  0 <= changed_count (self (snd r)) /\ 0 <= unchanged_count (self (snd r)) /\
  changed_count (self (snd r)) + unchanged_count (self (snd r)) =
    Z.of_nat (List.length pkgs) /\
  ((2 <= List.length pkgs)%nat ->
   msg = "Changed: " ++ Py.of_int (changed_count (self (snd r))) ++
         ", Unchanged: " ++ Py.of_int (unchanged_count (self (snd r)))).
Proof.
  intros Hlive Hverb r Hfst.
  destruct r as [o w1] eqn:Hrun. subst r. cbn [fst snd] in *. subst o.
  destruct (verb_of_dispatches _ Hverb) as [per D].
  destruct (@live_prefix m b st verb per opts pkgs [] c msg w1 Hlive D Hrun)
    as (w & Hloop & Em & Eb & Eo & Ef & Ec & Ecc & Euc & Es & Es1).
  rewrite app_nil_r in Hloop.
  set (w0 := HomebrewService_new m b (Some pkgs) st opts) in *.
  destruct (@for_each_live_counts st verb per pkgs w0 w D Hlive Hloop)
    as (Hv & Hsum & Hc & Hu).
  change (changed_count (self w0)) with 0 in *.
  change (unchanged_count (self w0)) with 0 in *.
  rewrite <- Ecc, <- Euc.
  repeat split; try assumption; try lia.
  intros Hlen.
  rewrite (@run_for_each st verb per w0 pkgs D eq_refl eq_refl), Hloop in Hrun.
  rewrite summarize_summary in Hrun by (assumption || lia).
  inversion Hrun. reflexivity.
Qed.

Lemma live_run_handles_all_witness :
  let m := scripted false [("bar", "Error: Service `bar` is not started.")] in
  let pkgs := [PStr "foo"; PStr "bar"; PStr "baz"] in
  let r := run (HomebrewService_new m default_brew (Some pkgs) (PStr "stopped") []) in
  forallb valid_package pkgs = true /\
  spawned (snd r) = map (command_vector (PStr default_brew) "stop" []) pkgs /\
  0 <= changed_count (self (snd r)) /\ 0 <= unchanged_count (self (snd r)) /\
  changed_count (self (snd r)) + unchanged_count (self (snd r)) =
    Z.of_nat (List.length pkgs) /\
  ((2 <= List.length pkgs)%nat ->
   "Changed: 2, Unchanged: 1" =
   "Changed: " ++ Py.of_int (changed_count (self (snd r))) ++
   ", Unchanged: " ++ Py.of_int (unchanged_count (self (snd r)))).
Proof.
  intros m pkgs.
  exact (@live_run_handles_all m default_brew (PStr "stopped") "stop" []
           pkgs true "Changed: 2, Unchanged: 1" eq_refl eq_refl eq_refl).
Defined.

(** ** Start and restart *)

Lemma visit_live_no_noop st verb per p w w' :
  dispatches st verb per ->
  verb <> "stop" ->
  check_mode (module (self w)) = false ->
  visit per p w = (Returned tt, w') ->
  unchanged_count (self w') = unchanged_count (self w) /\
  (st = PStr "restarted" -> changed (self w') = true).
Proof.
  intros D Hverb Hlive. destruct D; try congruence; run_cases p w; intros H;
    try congruence; inversion H; split; try reflexivity; intros E; discriminate.
Qed.

Lemma for_each_live_no_noop st verb per l w w' :
  dispatches st verb per ->
  verb <> "stop" ->
  check_mode (module (self w)) = false ->
  for_each l (visit per) w = (Returned tt, w') ->
  unchanged_count (self w') = unchanged_count (self w) /\
  (st = PStr "restarted" -> l <> [] -> changed (self w') = true).
Proof.
  intros D Hverb. revert w. induction l as [|p l IH]; intros w Hlive.
  - cbn. unfold ret. intros H. inversion H; subst. split; [reflexivity|].
    intros _ Hl. now contradiction Hl.
  - cbn [for_each]. unfold bind.
    pose proof (visit_same_config p w D) as (Em & _).
    pose proof (fun w1 => @visit_live_no_noop st verb per p w w1 D Hverb Hlive) as Hp.
    destruct (visit per p w) as [[[]|e] w1]; cbn [snd] in *; [|discriminate].
    intros H. destruct (Hp w1 eq_refl) as (Hu & Hc).
    destruct l as [|q l].
    + cbn in H. unfold ret in H. inversion H; subst. split; [exact Hu|].
      intros Est _. now apply Hc.
    + apply IH in H; [|now rewrite Em]. destruct H as (Hu' & Hc').
      split; [congruence|]. intros Est _. apply Hc'; [exact Est|discriminate].
Qed.

(** X6: Only [stop] knows a no-op.  A live [started] or [restarted] run that
    returns without failure has counted every service as changed and none
    as unchanged; and a [restarted] run over a list that is not empty
    returns [changed = True]. *)
Theorem start_restart_count_changes m b st verb opts pkgs c msg :
  check_mode m = false ->
  verb_of st = Some verb ->
  verb <> "stop" ->
  let r := run (HomebrewService_new m b (Some pkgs) st opts) in
  fst r = Returned (false, c, msg) ->
  changed_count (self (snd r)) = Z.of_nat (List.length pkgs) /\
  unchanged_count (self (snd r)) = 0 /\
  (st = PStr "restarted" -> pkgs <> [] -> c = true).
Proof.
  intros Hlive Hverb Hns r Hfst.
  destruct r as [o w1] eqn:Hrun. subst r. cbn [fst snd] in *. subst o.
  destruct (verb_of_dispatches _ Hverb) as [per D].
  destruct (@live_prefix m b st verb per opts pkgs [] c msg w1 Hlive D Hrun)
    as (w & Hloop & Em & Eb & Eo & Ef & Ec & Ecc & Euc & Es & Es1).
  rewrite app_nil_r in Hloop.
  set (w0 := HomebrewService_new m b (Some pkgs) st opts) in *.
  destruct (@for_each_live_counts st verb per pkgs w0 w D Hlive Hloop)
    as (Hv & Hsum & Hc & Hu).
  destruct (@for_each_live_no_noop st verb per pkgs w0 w D Hns Hlive Hloop)
    as (Hu0 & Hch).
  change (changed_count (self w0)) with 0 in *.
  change (unchanged_count (self w0)) with 0 in *.
  rewrite <- Ecc, <- Euc, <- Ec. repeat split; try lia. exact Hch.
Qed.

Lemma start_restart_count_changes_witness :
  let m := scripted false [] in
  let pkgs := [PStr "foo"; PStr "bar"] in
  let r := run (HomebrewService_new m default_brew (Some pkgs) (PStr "restarted") []) in
  changed_count (self (snd r)) = Z.of_nat (List.length pkgs) /\
  unchanged_count (self (snd r)) = 0 /\
  (PStr "restarted" = PStr "restarted" -> pkgs <> [] -> true = true).
Proof.
  intros m pkgs.
  refine (@start_restart_count_changes m default_brew (PStr "restarted") "restart" []
            pkgs true "Changed: 2, Unchanged: 0" eq_refl eq_refl _ eq_refl).
  discriminate.
Defined.

(** ** What [run] raises *)

Lemma visit_raises st verb per p w e w' :
  dispatches st verb per ->
  verb <> "stop" \/ check_mode (module (self w)) = true ->
  visit per p w = (Raised e, w') ->
  exists msg, e = HomebrewServiceException msg.
Proof.
  intros D Hor.
  destruct D; run_cases p w; intros H; try congruence;
    try (inversion H; eexists; reflexivity);
    destruct Hor as [Hor|Hor]; congruence.
Qed.

Lemma for_each_raises st verb per l w e w' :
  dispatches st verb per ->
  verb <> "stop" \/ check_mode (module (self w)) = true ->
  for_each l (visit per) w = (Raised e, w') ->
  exists msg, e = HomebrewServiceException msg.
Proof.
  intros D. revert w. induction l as [|p l IH]; intros w Hor.
  - discriminate.
  - cbn [for_each]. unfold bind.
    pose proof (visit_same_config p w D) as (Em & _).
    pose proof (fun e1 w1 => @visit_raises st verb per p w e1 w1 D Hor) as Hp.
    destruct (visit per p w) as [[[]|e1] w1]; cbn [snd] in *.
    + apply IH. now rewrite Em.
    + intros H. inversion H; subst. now apply (Hp e w').
Qed.

Lemma summarize_returns w : exists t, fst (summarize w) = Returned t.
Proof.
  destruct (summarize_spec w) as (msg & E & _). rewrite E. now eexists.
Qed.

(** X7: [run] returns its triple, whatever happens to the services, for
    every request but a live [stopped] one: no exception of the
    per-service methods gets past its [try] statement.  (A live [stop]
    hands the service name to [re.match] as a pattern.) *)
Theorem run_returns m b pkgs st opts :
  verb_of st <> Some "stop" \/ check_mode m = true ->
  exists failed_ changed_ message_,
    fst (run (HomebrewService_new m b pkgs st opts)) =
    Returned (failed_, changed_, message_).
Proof.
  intros Hor.
  set (w0 := HomebrewService_new m b pkgs st opts).
  assert (Ht : exists t, fst (run w0) = Returned t).
  { destruct (verb_of st) as [verb|] eqn:Hverb;
      [|rewrite (@run_other_state w0 Hverb); apply summarize_returns].
    destruct (verb_of_dispatches _ Hverb) as [per D].
    destruct pkgs as [l|];
      [|rewrite (@run_no_packages w0 eq_refl); apply summarize_returns].
    rewrite (@run_for_each st verb per w0 l D eq_refl eq_refl).
    assert (Hor' : verb <> "stop" \/ check_mode (module (self w0)) = true).
    { destruct Hor as [H|H]; [left; congruence|right; exact H]. }
    pose proof (fun e w' => @for_each_raises st verb per l w0 e w' D Hor') as Hr.
    destruct (for_each l (visit per) w0) as [[[]|e] w'].
    - apply summarize_returns.
    - destruct (Hr e w' eq_refl) as [msg ->]. apply summarize_returns. }
  destruct Ht as [[[f c] msg] Ht]. now exists f, c, msg.
Qed.

Lemma run_returns_witness :
  exists failed_ changed_ message_,
    fst (run (HomebrewService_new (scripted false [("foo", "Error: no")]) default_brew
                (Some [PStr "foo"]) (PStr "started") [])) =
    Returned (failed_, changed_, message_).
Proof.
  apply (@run_returns (scripted false [("foo", "Error: no")]) default_brew
           (Some [PStr "foo"]) (PStr "started") []).
  left. discriminate.
Defined.

(** ** Service names as patterns *)

(** A character that stands for itself in a pattern of the fragment. *)
Definition plain (c : ascii) : bool :=
  negb (Ascii.eqb c "+" || Ascii.eqb c "*" || Ascii.eqb c "."
        || Re.outside_fragment c).

(** The name holds neither [.] nor [+], the two metacharacters that
    [valid_package] lets through. *)
Definition no_metacharacter (name : string) : bool :=
  all_chars (fun c => negb (Ascii.eqb c "." || Ascii.eqb c "+")) name.

Definition starts_quantified (s : string) : bool :=
  match s with
  | String c _ => Ascii.eqb c "+" || Ascii.eqb c "*"
  | EmptyString => false
  end.

Lemma append_assoc (a b c : string) : (a ++ b) ++ c = a ++ b ++ c.
Proof. induction a as [|x a IH]; cbn; [reflexivity|]. now rewrite IH. Qed.

Lemma all_chars_app ok a b :
  all_chars ok (a ++ b) = all_chars ok a && all_chars ok b.
Proof.
  induction a as [|x a IH]; cbn; [reflexivity|]. now rewrite IH, andb_assoc.
Qed.

Lemma parse_plain_cons c rest :
  plain c = true ->
  starts_quantified rest = false ->
  Re.parse (String c rest) = Re.quantified (Re.Char c) Re.Once (Re.parse rest).
Proof.
  unfold plain. rewrite negb_true_iff, !orb_false_iff.
  intros [[[Hp Hs] Hd] Ho] Hq.
  cbn [Re.parse]. rewrite Hp, Hs, Ho. cbn [orb].
  unfold Re.atom_of. rewrite Hd.
  destruct rest as [|d rest]; [reflexivity|].
  cbn [starts_quantified] in Hq. apply orb_false_iff in Hq as [Hq1 Hq2].
  destruct d as [[] [] [] [] [] [] [] []]; try reflexivity;
    cbn in Hq1, Hq2; discriminate.
Qed.

Lemma plain_not_quantifier c s :
  plain c = true -> starts_quantified (String c s) = false.
Proof.
  unfold plain. rewrite negb_true_iff, !orb_false_iff.
  intros [[[Hp Hs] _] _]. cbn. now rewrite Hp, Hs.
Qed.

Lemma parse_literally s t :
  all_chars plain s = true ->
  starts_quantified t = false ->
  Re.parse (s ++ t) =
  match Re.parse t with
  | Re.Compiled p => Re.Compiled (literally s ++ p)%list
  | other => other
  end.
Proof.
  induction s as [|c s IH]; intros Hs Ht.
  - cbn [append literally app]. now destruct (Re.parse t).
  - cbn [all_chars] in Hs. apply andb_true_iff in Hs as [Hc Hs].
    cbn [append]. rewrite parse_plain_cons; [|exact Hc|].
    + rewrite (IH Hs Ht). cbn [literally app]. now destruct (Re.parse t).
    + destruct s as [|d s]; [exact Ht|].
      cbn [all_chars] in Hs. apply andb_true_iff in Hs as [Hd _].
      cbn [append]. now apply plain_not_quantifier.
Qed.

Lemma valid_char_plain c :
  Re.in_set INVALID_PACKAGE_REGEX c = true ->
  negb (Ascii.eqb c "." || Ascii.eqb c "+") = true ->
  plain c = true.
Proof.
  destruct c as [[] [] [] [] [] [] [] []]; vm_compute; intros H1 H2;
    try reflexivity; discriminate.
Qed.

Lemma valid_name_plain name :
  valid_package (PStr name) = true ->
  no_metacharacter name = true ->
  all_chars plain name = true.
Proof.
  unfold valid_package, no_metacharacter. rewrite search_negated_set_all_chars.
  induction name as [|c name IH]; cbn [all_chars]; [reflexivity|].
  rewrite !andb_true_iff. intros [Hc Hn] [Hc' Hn'].
  split; [now apply valid_char_plain|now apply IH].
Qed.

(** *** What the two patterns say for such a name *)

Lemma repeat_then_any k s :
  Re.repeat_then Re.AnyChar k s = true <->
  exists mid rest,
    s = mid ++ rest /\
    all_chars (fun c => negb (Ascii.eqb c Py.newline)) mid = true /\
    k rest = true.
Proof.
  induction s as [|c s IH].
  - cbn [Re.repeat_then]. rewrite orb_false_r. split.
    + intros H. exists "", "". repeat split. exact H.
    + intros (mid & rest & E & _ & H).
      destruct mid; [|discriminate]. cbn in E. now subst.
  - cbn [Re.repeat_then Re.atom_matches]. rewrite orb_true_iff, andb_true_iff, IH.
    split.
    + intros [H|[Hc (mid & rest & E & Hmid & H)]].
      * exists "", (String c s). repeat split. exact H.
      * exists (String c mid), rest. cbn. rewrite Hc, Hmid, E. repeat split. exact H.
    + intros (mid & rest & E & Hmid & H). destruct mid as [|d mid].
      * left. cbn in E. now subst.
      * right. cbn in E. inversion E; subst. cbn [all_chars] in Hmid.
        apply andb_true_iff in Hmid as [Hd Hmid]. split; [exact Hd|].
        now exists mid, rest.
Qed.

Lemma match_here_text s err :
  Re.match_here (literally s) err = true <-> exists rest, err = s ++ rest.
Proof.
  rewrite <- (app_nil_r (literally s)), match_here_literally.
  split.
  - intros (rest & E & _). now exists rest.
  - intros (rest & E). exists rest. now split.
Qed.

Lemma status_pattern name :
  all_chars plain name = true ->
  Re.compile ("^" ++ name ++ ".*started") =
  Re.Compiled (Re.Pattern true
    (literally name ++ (Re.AnyChar, Re.ZeroOrMore) :: literally "started")%list).
Proof.
  intros Hn. cbn [append Re.compile].
  rewrite (@parse_literally name ".*started" Hn eq_refl). reflexivity.
Qed.

Lemma search_status_pattern name line :
  Re.search (Re.Pattern true
    (literally name ++ (Re.AnyChar, Re.ZeroOrMore) :: literally "started")%list) line
  = true <->
  exists mid rest,
    line = name ++ mid ++ "started" ++ rest /\
    all_chars (fun c => negb (Ascii.eqb c Py.newline)) mid = true.
Proof.
  unfold Re.search. cbn [Re.at_beginning Re.body].
  rewrite match_here_literally. cbn [Re.match_here]. split.
  - intros (tail & E & H). apply repeat_then_any in H as (mid & rest & E' & Hmid & H).
    apply match_here_text in H as (rest' & E'').
    exists mid, rest'. subst. now split.
  - intros (mid & rest & E & Hmid). exists (mid ++ "started" ++ rest).
    split; [exact E|]. apply repeat_then_any.
    exists mid, ("started" ++ rest). split; [reflexivity|split; [exact Hmid|]].
    apply match_here_text. now exists rest.
Qed.

Lemma split_no_newline out line :
  In line (Py.split Py.newline out) ->
  all_chars (fun c => negb (Ascii.eqb c Py.newline)) line = true.
Proof.
  revert line. induction out as [|c out IH]; intros line.
  - cbn. intros [<-|[]]. reflexivity.
  - cbn [Py.split]. destruct (Ascii.eqb c Py.newline) eqn:Ec.
    + intros [<-|H]; [reflexivity|now apply IH].
    + destruct (Py.split Py.newline out) as [|h t].
      * intros [<-|[]]. cbn. now rewrite Ec.
      * intros [<-|H].
        -- cbn. rewrite Ec. apply IH. now left.
        -- apply IH. now right.
Qed.

(** X8: The status query, for a well-formed name without [.] and [+]: it
    runs its command, returns, and answers [True] exactly when some line
    of the output starts with the name and holds [started] somewhere after
    the name. *)
Theorem status_query_answer w name :
  current_package (self w) = Some (PStr name) ->
  valid_package (PStr name) = true ->
  no_metacharacter name = true ->
  let cmd := [PStr (format0 (brew_path (self w))); PStr "serviceslist"] in
  let out := snd (fst (run_command (module (self w)) (spawned w) cmd)) in
  exists answer,
    fst (_current_package_is_started w) = Returned answer /\
    (answer = true <->
     exists line mid rest,
       In line (Py.split Py.newline out) /\
       line = name ++ mid ++ "started" ++ rest).
Proof.
  intros Hp Hv Hn cmd out. subst cmd out.
  pose proof (valid_name_plain name Hv Hn) as Hplain.
  unfold _current_package_is_started. run_method. rewrite Hp. run_method.
  rewrite Hv. run_method.
  destruct (run_command _ _ _) as [[rc out] err]. cbn [fst snd].
  cbn [format0]. rewrite (status_pattern name Hplain).
  eexists. split; [reflexivity|].
  rewrite existsb_exists. split.
  - intros (line & Hin & Hs). apply search_status_pattern in Hs as (mid & rest & E & _).
    now exists line, mid, rest.
  - intros (line & mid & rest & Hin & E). exists line. split; [exact Hin|].
    apply search_status_pattern. exists mid, rest. split; [exact E|].
    pose proof (split_no_newline out line Hin) as Hl.
    rewrite E, !all_chars_app in Hl.
    apply andb_true_iff in Hl as [_ Hl]. now apply andb_true_iff in Hl as [Hl _].
Qed.

Lemma status_query_answer_witness :
  let m := {| check_mode := false;
              run_command := fun _ _ => (0, "foo started user
bar stopped", "") |} in
  let w := Machine (with_current_package (Some (PStr "foo"))
                      (self (HomebrewService_new m default_brew
                               (Some [PStr "foo"]) (PStr "started") [])))
                   [] in
  exists answer,
    fst (_current_package_is_started w) = Returned answer /\
    (answer = true <->
     exists line mid rest,
       In line (Py.split Py.newline "foo started user
bar stopped") /\
       line = "foo" ++ mid ++ "started" ++ rest).
Proof.
  intros m w.
  exact (@status_query_answer w "foo" eq_refl eq_refl eq_refl).
Defined.

Lemma not_started_compiles name :
  all_chars plain name = true ->
  Re.compile (not_started_pattern (PStr name)) =
  Re.Compiled (Re.Pattern true
    (literally ("Error: Service `" ++ name ++ "` is not started")
     ++ [(Re.AnyChar, Re.Once)])%list).
Proof.
  intros Hn. unfold not_started_pattern. cbn [format0].
  change ("^Error: Service `" ++ name ++ "` is not started.")
    with (String "^" ("Error: Service `" ++ name ++ "` is not started" ++ ".")).
  cbn [Re.compile].
  rewrite <- (append_assoc name), <- (append_assoc "Error: Service `").
  rewrite parse_literally; [reflexivity| |reflexivity].
  rewrite !all_chars_app, Hn. reflexivity.
Qed.

Lemma match_not_started name q err :
  all_chars plain name = true ->
  Re.compile (not_started_pattern (PStr name)) = Re.Compiled q ->
  Re.match_ q err = true <-> says_not_started name err.
Proof.
  intros Hn. rewrite (not_started_compiles name Hn). intros E.
  assert (Eq : q = Re.Pattern true
    (literally ("Error: Service `" ++ name ++ "` is not started")
     ++ [(Re.AnyChar, Re.Once)])%list) by congruence.
  rewrite Eq. unfold Re.match_. cbn [Re.body]. rewrite match_here_literally.
  unfold says_not_started. split.
  - intros (rest & Eerr & H). destruct rest as [|c rest]; [discriminate|].
    cbn in H. exists c, rest. split; [exact Eerr|].
    intros ->. discriminate.
  - intros (c & rest & Eerr & Hc). exists (String c rest). split; [exact Eerr|].
    cbn. destruct (Ascii.eqb_spec c Py.newline); [contradiction|reflexivity].
Qed.

Lemma visit_stop_noop p w q :
  check_mode (module (self w)) = false ->
  valid_package p = true ->
  let cmd := command_vector (brew_path (self w)) "stop" (service_options (self w)) p in
  let err := snd (run_command (module (self w)) (spawned w) cmd) in
  err <> "" ->
  Re.compile (not_started_pattern p) = Re.Compiled q ->
  Re.match_ q err = true ->
  visit _stop_current_package p w =
  (Returned tt,
   Machine (with_message ("Package already stopped: " ++ format0 p)
              (with_changed false
                 (with_unchanged_count (unchanged_count (self w) + 1)
                    (with_current_package (Some p) (self w)))))
           (spawned w ++ [cmd])).
Proof.
  intros Hlive Hv cmd err Hne Hq Hm. subst cmd err.
  run_method. rewrite Hv. run_method. rewrite Hv. run_method.
  rewrite Hlive. run_method.
  destruct (run_command _ _ _) as [[rc out] err]. cbn [snd] in Hne, Hm.
  destruct (String.eqb_spec err ""); [contradiction|]. run_method.
  rewrite Hq. run_method. rewrite Hm. reflexivity.
Qed.

(** X9: The classification of [stop] for every well-formed name without [.]
    and [+], in a live request of that one service: an error stream of
    the form [Error: Service `<name>` is not started] and one more
    character is the recognised no-op, counted as unchanged; any other
    error stream that is not empty is a failure with the stripped text as
    message. *)
Theorem stop_classified m b opts name :
  check_mode m = false ->
  valid_package (PStr name) = true ->
  no_metacharacter name = true ->
  let err := snd (run_command m [] (command_vector (PStr b) "stop" opts (PStr name))) in
  let r := run (HomebrewService_new m b (Some [PStr name]) (PStr "stopped") opts) in
  (says_not_started name err ->
   fst r = Returned (false, false, "Package already stopped: " ++ name) /\
   unchanged_count (self (snd r)) = 1 /\
   changed_count (self (snd r)) = 0) /\
  (err <> "" -> ~ says_not_started name err ->
   fst r = Returned (true, false, Py.strip err) /\
   unchanged_count (self (snd r)) = 0).
Proof.
  intros Hlive Hv Hn err r. subst r.
  pose proof (valid_name_plain name Hv Hn) as Hplain.
  pose proof (not_started_compiles name Hplain) as Hq.
  pose proof (fun e => @match_not_started name _ e Hplain Hq) as Hm.
  rewrite (run_single m b (PStr name) opts dispatch_stopped).
  set (w0 := HomebrewService_new m b (Some [PStr name]) (PStr "stopped") opts).
  split.
  - intros Hsays.
    assert (Hne : err <> "").
    { destruct Hsays as (c & rest & E & _). rewrite E.
      destruct name; discriminate. }
    rewrite (@visit_stop_noop (PStr name) w0 _ Hlive Hv Hne Hq (proj2 (Hm err) Hsays)).
    repeat split.
  - intros Hne Hnot.
    rewrite (@visit_live_failure _ _ _ (PStr name) w0 dispatch_stopped Hlive Hv).
    + repeat split.
    + split; [exact Hne|]. intros _. eexists. split; [exact Hq|].
      destruct (Re.match_ _ _) eqn:Hmatch; [|reflexivity].
      exfalso. apply Hnot, Hm. exact Hmatch.
Qed.

Lemma stop_classified_witness :
  let m := scripted false
             [("redis-server", "Error: Service `redis-server` is not started.")] in
  let r := run (HomebrewService_new m default_brew (Some [PStr "redis-server"])
                  (PStr "stopped") []) in
  fst r = Returned (false, false, "Package already stopped: " ++ "redis-server") /\
  unchanged_count (self (snd r)) = 1 /\
  changed_count (self (snd r)) = 0.
Proof.
  intros m.
  apply (proj1 (@stop_classified m default_brew [] "redis-server"
                  eq_refl eq_refl eq_refl)).
  exists "."%char, "". split; [reflexivity|discriminate].
Defined.

(** *** The fragment is enough

    The patterns that the module builds from a validated name never
    leave the fragment of [Re.parse]. *)

Definition in_fragment (c : ascii) : bool := negb (Re.outside_fragment c).

Lemma parse_cons c rest :
  Re.parse (String c rest) =
  if Ascii.eqb c "+" || Ascii.eqb c "*" then Re.Error
  else if Re.outside_fragment c then Re.Unsupported
  else match rest with
       | String d rest' =>
           if Ascii.eqb d "+" then
             Re.quantified (Re.atom_of c) Re.OneOrMore (Re.parse rest')
           else if Ascii.eqb d "*" then
             Re.quantified (Re.atom_of c) Re.ZeroOrMore (Re.parse rest')
           else Re.quantified (Re.atom_of c) Re.Once (Re.parse rest)
       | EmptyString => Re.quantified (Re.atom_of c) Re.Once (Re.parse rest)
       end.
Proof.
  cbn [Re.parse].
  destruct (Ascii.eqb c "+" || Ascii.eqb c "*"); [reflexivity|].
  destruct (Re.outside_fragment c); [reflexivity|].
  destruct rest as [|d rest']; [reflexivity|].
  destruct d as [[] [] [] [] [] [] [] []]; reflexivity.
Qed.

Lemma quantified_supported a q r :
  r <> Re.Unsupported -> Re.quantified a q r <> Re.Unsupported.
Proof. destruct r; cbn; congruence. Qed.

Lemma parse_supported_upto n s :
  (String.length s <= n)%nat ->
  all_chars in_fragment s = true ->
  Re.parse s <> Re.Unsupported.
Proof.
  revert s. induction n as [|n IH]; intros s Hlen Hs.
  - destruct s; [discriminate|cbn in Hlen; lia].
  - destruct s as [|c rest]; [discriminate|].
    cbn [all_chars] in Hs. apply andb_true_iff in Hs as [Hc Hrest].
    cbn [String.length] in Hlen.
    rewrite parse_cons.
    destruct (Ascii.eqb c "+" || Ascii.eqb c "*"); [discriminate|].
    unfold in_fragment in Hc. apply negb_true_iff in Hc. rewrite Hc.
    destruct rest as [|d rest'].
    + apply quantified_supported. discriminate.
    + assert (Hrest' : all_chars in_fragment rest' = true).
      { cbn [all_chars] in Hrest. now apply andb_true_iff in Hrest as [_ H]. }
      cbn [String.length] in Hlen.
      destruct (Ascii.eqb d "+"); [|destruct (Ascii.eqb d "*")];
        apply quantified_supported, IH; try assumption; cbn [String.length]; lia.
Qed.

Lemma valid_char_in_fragment c :
  Re.in_set INVALID_PACKAGE_REGEX c = true -> in_fragment c = true.
Proof.
  destruct c as [[] [] [] [] [] [] [] []]; vm_compute; intros H;
    try reflexivity; discriminate.
Qed.

Lemma valid_name_in_fragment p :
  valid_package p = true -> all_chars in_fragment (format0 p) = true.
Proof.
  destruct p as [|s|n]; [reflexivity| |discriminate].
  unfold valid_package. rewrite search_negated_set_all_chars. cbn [format0].
  induction s as [|c s IH]; cbn [all_chars]; [reflexivity|].
  rewrite !andb_true_iff. intros [Hc Hs].
  split; [now apply valid_char_in_fragment|now apply IH].
Qed.

Lemma compile_supported s :
  all_chars in_fragment s = true -> Re.compile (String "^" s) <> Re.Unsupported.
Proof.
  intros Hs. cbn [Re.compile].
  pose proof (@parse_supported_upto (String.length s) s (le_n _) Hs) as H.
  destruct (Re.parse s); congruence.
Qed.

(** After [valid_package], [re_compile] raises for [re.error] alone. *)
Lemma patterns_in_fragment p :
  valid_package p = true ->
  Re.compile (not_started_pattern p) <> Re.Unsupported /\
  Re.compile ("^" ++ format0 p ++ ".*started") <> Re.Unsupported.
Proof.
  intros Hv. pose proof (valid_name_in_fragment p Hv) as Hn. split.
  - unfold not_started_pattern.
    change ("^Error: Service `" ++ format0 p ++ "` is not started.")
      with (String "^" ("Error: Service `" ++ format0 p ++ "` is not started.")).
    apply compile_supported. rewrite !all_chars_app, Hn. reflexivity.
  - change ("^" ++ format0 p ++ ".*started")
      with (String "^" (format0 p ++ ".*started")).
    apply compile_supported. rewrite all_chars_app, Hn. reflexivity.
Qed.

(** ** A malformed first name *)

(** X10: In check mode as in a live run, a request whose first service name is
    malformed fails at once with [Invalid package: <name>.]: no command
    runs, [current_package] is left at [None], and the rest of the list is
    not looked at. *)
Theorem invalid_first_name m b st verb bad rest opts :
  verb_of st = Some verb ->
  valid_package bad = false ->
  let r := run (HomebrewService_new m b (Some (bad :: rest)) st opts) in
  fst r = Returned (true, false, "Invalid package: " ++ format0 bad ++ ".") /\
  spawned (snd r) = [] /\
  current_package (self (snd r)) = Some PNone /\
  changed_count (self (snd r)) = 0 /\
  unchanged_count (self (snd r)) = 0.
Proof.
  intros Hverb Hv r.
  destruct (verb_of_dispatches _ Hverb) as [per D].
  assert (Hr : r =
    (Returned (true, false, "Invalid package: " ++ format0 bad ++ "."),
     Machine (with_message ("Invalid package: " ++ format0 bad ++ ".")
                (with_failed true (with_current_package (Some PNone)
                   (self (HomebrewService_new m b (Some (bad :: rest)) st opts)))))
             [])).
  { subst r.
    rewrite (@run_for_each st verb per
               (HomebrewService_new m b (Some (bad :: rest)) st opts)
               (bad :: rest) D eq_refl eq_refl).
    cbn [for_each]. unfold bind at 1.
    rewrite (@visit_invalid per bad _ Hv). reflexivity. }
  rewrite Hr. repeat split.
Qed.

Lemma invalid_first_name_witness :
  let r := run (HomebrewService_new (scripted true []) default_brew
                  (Some [PStr "my service"; PStr "foo"]) (PStr "started") []) in
  fst r = Returned (true, false, "Invalid package: " ++ format0 (PStr "my service") ++ ".") /\
  spawned (snd r) = [] /\
  current_package (self (snd r)) = Some PNone /\
  changed_count (self (snd r)) = 0 /\
  unchanged_count (self (snd r)) = 0.
Proof.
  exact (@invalid_first_name (scripted true []) default_brew (PStr "started") "start"
           (PStr "my service") [PStr "foo"] [] eq_refl eq_refl).
Defined.

(** ** The desired state *)




(** *** The state, up to case *)












(** ** The brew path *)

Definition with_brew_path v (o : HomebrewService) :=
  {| module := module o; brew_path := v; packages := packages o;
     state := state o; service_options := service_options o;
     current_package := current_package o; failed := failed o; changed := changed o;
     changed_count := changed_count o; unchanged_count := unchanged_count o;
     message := message o |}.

(** The setter of [brew_path]. *)
Definition set_brew_path (brew_path_ : pyval) : M unit :=
  if negb (valid_brew_path brew_path_) then
    assign (with_brew_path PNone) ;;
    assign (with_failed true) ;;
    assign (with_message ("Invalid brew_path: " ++ format0 brew_path_ ++ ".")) ;;
    msg <- attr message ;;
    raise (HomebrewServiceException msg)
  else
    assign (with_brew_path brew_path_).

(** [_prep_brew_path], with [found] for what
    [self.module.get_bin_path('brew', required=True, opt_dirs=self.path)]
    returns; [self.module], an [AnsibleModule], is true. *)
Definition _prep_brew_path (found : pyval) : M pyval :=
  set_brew_path found ;;
  b <- attr brew_path ;;
  if negb (truthy b) then
    set_brew_path PNone ;;
    assign (with_failed true) ;;
    assign (with_message "Unable to locate homebrew executable.") ;;
    raise (HomebrewServiceException "Unable to locate homebrew executable.")
  else
    attr brew_path.

Definition _prep (found : pyval) : M unit := _prep_brew_path found ;; ret tt.

(** A string that is not empty, over [[\w\s/.\-]]. *)
Definition usable_brew_path (found : pyval) : Prop :=
  exists s, found = PStr s /\ s <> "" /\ all_chars brew_path_char s = true.

Lemma usable_brew_path_iff found :
  usable_brew_path found <-> valid_brew_path found = true /\ truthy found = true.
Proof.
  unfold usable_brew_path. split.
  - intros (s & -> & Hne & Hs). rewrite valid_brew_path_str. split; [exact Hs|].
    destruct s; [contradiction|reflexivity].
  - intros [Hv Ht]. destruct found as [|s|n]; try discriminate.
    exists s. rewrite valid_brew_path_str in Hv. repeat split; [|exact Hv].
    intros ->. discriminate.
Qed.

(** X12: [_prep_brew_path] keeps the executable it is given exactly when that
    is a string that is not empty, over [[\w\s/.\-]]: then it returns it
    and the object is as it was but for [brew_path].  Any other value, a
    path with a character such as [@] or [+] among them, ends in a
    [HomebrewServiceException] with [failed] set, [brew_path] at [None] and
    the message of the exception in [message]; nothing is run. *)
Theorem prep_brew_path_returns (found : pyval) (w : machine) :
  let r := _prep_brew_path found w in
  (usable_brew_path found ->
   r = (Returned found, Machine (with_brew_path found (self w)) (spawned w))) /\
  (~ usable_brew_path found ->
   exists msg,
     fst r = Raised (HomebrewServiceException msg) /\
     message (self (snd r)) = msg /\
     failed (self (snd r)) = true /\
     brew_path (self (snd r)) = PNone /\
     spawned (snd r) = spawned w).
Proof.
  intros r. subst r. rewrite usable_brew_path_iff.
  unfold _prep_brew_path, set_brew_path, bind, attr, assign, raise.
  split.
  - intros [Hv Ht]. rewrite Hv. cbn. rewrite Ht. reflexivity.
  - intros Hn. destruct (valid_brew_path found) eqn:Hv; cbn.
    + destruct (truthy found) eqn:Ht; [exfalso; now apply Hn|].
      cbn. eexists. repeat split.
    + eexists. repeat split.
Qed.

Lemma prep_brew_path_returns_witness :
  exists msg,
    let r := _prep_brew_path (PStr "/opt/homebrew@2/bin/brew")
               (HomebrewService_new (scripted false []) "" None PNone []) in
    fst r = Raised (HomebrewServiceException msg) /\
    message (self (snd r)) = msg /\
    failed (self (snd r)) = true /\
    brew_path (self (snd r)) = PNone /\
    spawned (snd r) = [].
Proof.
  apply (proj2 (prep_brew_path_returns (PStr "/opt/homebrew@2/bin/brew")
                  (HomebrewService_new (scripted false []) "" None PNone []))).
  intros (s & E & _ & H). inversion E; subst. discriminate H.
Defined.

(** ** What [run] runs *)

(** The commands of [log] are [b services verb ...], and there are at
    most [n] of them. *)
Definition brew_services_only (b verb : string) (n : nat) (log : list (list pyval)) : Prop :=
  Forall (fun cmd => exists rest, cmd = PStr b :: PStr "services" :: PStr verb :: rest) log /\
  (List.length log <= n)%nat.

Lemma command_vector_shape b verb opts p :
  b <> "" -> verb <> "" ->
  exists rest,
    command_vector (PStr b) verb opts p =
    PStr b :: PStr "services" :: PStr verb :: rest.
Proof.
  intros Hb Hverb. destruct b as [|c b]; [contradiction|].
  destruct verb as [|c' verb]; [contradiction|].
  unfold command_vector. cbn. eexists. reflexivity.
Qed.

Lemma visit_spawned st verb per p w :
  dispatches st verb per ->
  spawned (snd (visit per p w)) = spawned w \/
  spawned (snd (visit per p w)) =
    (spawned w ++
     [command_vector (brew_path (self w)) verb (service_options (self w)) p])%list.
Proof.
  intros D. destruct D; run_cases p w; auto.
Qed.

Lemma for_each_brew_services_only st verb per b l w n :
  dispatches st verb per ->
  b <> "" ->
  brew_path (self w) = PStr b ->
  brew_services_only b verb n (spawned w) ->
  brew_services_only b verb (n + List.length l)
    (spawned (snd (for_each l (visit per) w))).
Proof.
  intros D Hb. revert w n. induction l as [|p l IH]; intros w n Eb [Hall Hlen].
  - cbn. split; [exact Hall|lia].
  - cbn [for_each]. unfold bind.
    pose proof (visit_same_config p w D) as (_ & Eb' & _).
    pose proof (@visit_spawned st verb per p w D) as Hs.
    assert (H1 : brew_services_only b verb (n + 1) (spawned (snd (visit per p w)))).
    { destruct Hs as [Hs|Hs]; rewrite Hs.
      - split; [exact Hall|lia].
      - split.
        + apply Forall_app. split; [exact Hall|]. constructor; [|constructor].
          rewrite Eb. apply command_vector_shape; [exact Hb|].
          destruct D; discriminate.
        + rewrite length_app. cbn. lia. }
    destruct (visit per p w) as [[[]|e] w1]; cbn [snd] in *.
    + replace (n + List.length (p :: l))%nat with ((n + 1) + List.length l)%nat
        by (cbn; lia).
      apply IH; [congruence|exact H1].
    + destruct H1 as [H1 H2]. split; [exact H1|cbn; lia].
Qed.

(** X13: Whatever the request and the answers of the commands, in check mode
    or not: every command that [run] hands to [run_command] is the
    executable followed by [services] and the verb of the state, and there
    is at most one command for each service of the request. *)
Theorem run_runs_brew_services_only m b pkgs st opts :
  b <> "" ->
  let log := spawned (snd (run (HomebrewService_new m b pkgs st opts))) in
  Forall (fun cmd => exists verb rest,
            verb_of st = Some verb /\
            cmd = PStr b :: PStr "services" :: PStr verb :: rest) log /\
  (List.length log <= List.length (match pkgs with Some l => l | None => [] end))%nat.
Proof.
  intros Hb log. subst log.
  set (w0 := HomebrewService_new m b pkgs st opts).
  destruct (verb_of st) as [verb|] eqn:Hverb;
    [|rewrite (@run_other_state w0 Hverb), summarize_spawned;
      split; [constructor|cbn; lia]].
  destruct (verb_of_dispatches _ Hverb) as [per D].
  destruct pkgs as [l|];
    [|rewrite (@run_no_packages w0 eq_refl), summarize_spawned;
      split; [constructor|cbn; lia]].
  rewrite (@run_for_each st verb per w0 l D eq_refl eq_refl).
  assert (H0 : brew_services_only b verb 0 (spawned w0)).
  { split; [constructor|cbn; lia]. }
  pose proof (@for_each_brew_services_only st verb per b l w0 0%nat D Hb eq_refl H0)
    as [Hall Hlen].
  assert (Hs : spawned (snd (match for_each l (visit per) w0 with
                   | (Returned _, w') => summarize w'
                   | (Raised (HomebrewServiceException _), w') => summarize w'
                   | (Raised e, w') => (Raised e, w')
                   end)) = spawned (snd (for_each l (visit per) w0))).
  { destruct (for_each l (visit per) w0) as [[[]|[]] w']; cbn [snd];
      rewrite ?summarize_spawned; reflexivity. }
  rewrite Hs. split; [|exact Hlen].
  eapply Forall_impl; [|exact Hall].
  intros cmd (rest & E). now exists verb, rest.
Qed.

Lemma run_runs_brew_services_only_witness :
  let m := scripted false [("bar", "Error: no such service")] in
  let log := spawned (snd (run (HomebrewService_new m default_brew
                                  (Some [PStr "foo"; PStr "bar"; PStr "baz"])
                                  (PStr "restarted") [PStr "--verbose"]))) in
  Forall (fun cmd => exists verb rest,
            verb_of (PStr "restarted") = Some verb /\
            cmd = PStr default_brew :: PStr "services" :: PStr verb :: rest) log /\
  (List.length log <= 3)%nat.
Proof.
  intros m.
  refine (@run_runs_brew_services_only m default_brew
            (Some [PStr "foo"; PStr "bar"; PStr "baz"])
            (PStr "restarted") [PStr "--verbose"] _).
  discriminate.
Defined.
